(** * Lane-following node: shallow embedding and verified properties

    Source: [packages/lane_following/src/lane_following_node.py].

    The node has two execution contexts: the image subscriber thread, which
    runs [callback] on every frame, and the main thread, which runs [drive]
    at 8 Hz.  Both are embedded as computations in a small monad that threads
    the node object, accumulates the observable events (publications, calls
    on the dead-reckoning controller, lock operations and writes to the
    shared fields) and propagates Python exceptions.

    Numbers.  Python [int]s are [Z].  Python [float]s are modelled by exact
    rationals [Q]; no property below depends on rounding.  True division
    [a / b] raises [ZeroDivisionError] when [b] is zero, as in Python. *)

From Stdlib Require Import ZArith QArith List Lia Bool String.
Import ListNotations.

Local Open Scope Z_scope.

(** ** Module constants *)

Definition ENGLISH : bool := false.
Definition STOP_TIMER_RESET_TIME : Z := 60.

(** ** Python arithmetic helpers *)

(** [a > b] on floats. *)
Definition Qgtb (a b : Q) : bool := negb (Qle_bool a b).

(** [int(x)] on a float: truncation toward zero. *)
Definition py_int (x : Q) : Z := Z.quot (Qnum x) (Z.pos (Qden x)).

(** ** Messages, events and exceptions *)

(** [duckietown_msgs/Twist2DStamped], header omitted. *)
Record Twist2DStamped : Type := mkTwist { v : Q; omega : Q }.

Inductive exn : Type :=
| ZeroDivisionError
| IndexError
| StateMachineError.

(** Everything the node does that another party can observe. *)
Inductive event : Type :=
| LockAcquire
| LockRelease
| WriteStopTimer (z : Z)           (* self.stop_timer_reset = z *)
| WritePrepTurn (b : bool)         (* self.prep_turn = b *)
| CtlStop (n : Z)                  (* self.controller.stop(n) *)
| CtlResetPosition                 (* self.controller.reset_position() *)
| CtlSetTurnFlag (b : bool)        (* self.controller.set_turn_flag(b) *)
| CtlDriveForTime (l r : Q) (t : Z)  (* self.controller.driveForTime(l, r, t) *)
| Publish (tw : Twist2DStamped)    (* self.vel_pub.publish(tw) *)
| SignalShutdown.                  (* rospy.signal_shutdown(...) *)

(** ** The state machine collaborator

    [state_machine.BotState] is a separate module of the package, which
    this development does not embed.  The node only uses the four methods
    below, so the node is verified against this interface; a method that
    raises is represented by [None]. *)
Class StateMachine (BotState : Type) : Type := {
  get_lane_following_flag : BotState -> bool;
  (* get_flags()['is_expecting_red_stopline'] *)
  is_expecting_red_stopline : BotState -> bool;
  decide_turn_at_red_stopline : BotState -> option Z;
  (* returns the new state id; mutates the object *)
  advance_state : BotState -> option (Z * BotState)
}.

(** ** Perception black box

    What OpenCV reports about one contour: [cv2.contourArea],
    [cv2.moments] and [cv2.boundingRect]. *)
Record Moments : Type := mkMoments { m00 : Q; m10 : Q; m01 : Q }.

Record Contour : Type := mkContour {
  contourArea : Q;
  moments : Moments;
  boundingRect : Z * Z * Z * Z   (* xmin, ymin, width, height *)
}.

(** A decoded frame, reduced to what [callback] and [stopline_processing]
    read from it: the image width [im.shape[1]] (the crop [img[300:-1,:,:]]
    keeps all columns, so [crop.shape[1]] is the same number), the contours
    of the road mask in the crop, and the contours of the dilated red mask
    in the full image. *)
Record Frame : Type := mkFrame {
  shape1 : Z;
  road_contours : list Contour;
  red_contours : list Contour
}.

Section Node.

Context {BotState : Type} {SM : StateMachine BotState}.

(** ** The node object *)

Record LaneFollowNode : Type := mkNode {
  proportional : option Z;
  offset : Z;
  velocity : Q;
  speed : Q;
  twist : Twist2DStamped;
  P : Q;
  D : Q;
  last_error : Z;
  last_time : Q;
  prep_turn : bool;
  stop_timer_reset : Z;
  bot_state : BotState;
  (* attribute created by general_callback on 'stop'; absent before *)
  continue_run : option bool
}.

Definition with_proportional (x : option Z) (s : LaneFollowNode) :=
  mkNode x (offset s) (velocity s) (speed s) (twist s) (P s) (D s)
    (last_error s) (last_time s) (prep_turn s) (stop_timer_reset s)
    (bot_state s) (continue_run s).

Definition with_twist (x : Twist2DStamped) (s : LaneFollowNode) :=
  mkNode (proportional s) (offset s) (velocity s) (speed s) x (P s) (D s)
    (last_error s) (last_time s) (prep_turn s) (stop_timer_reset s)
    (bot_state s) (continue_run s).

Definition with_last_error (x : Z) (s : LaneFollowNode) :=
  mkNode (proportional s) (offset s) (velocity s) (speed s) (twist s) (P s)
    (D s) x (last_time s) (prep_turn s) (stop_timer_reset s)
    (bot_state s) (continue_run s).

Definition with_last_time (x : Q) (s : LaneFollowNode) :=
  mkNode (proportional s) (offset s) (velocity s) (speed s) (twist s) (P s)
    (D s) (last_error s) x (prep_turn s) (stop_timer_reset s)
    (bot_state s) (continue_run s).

Definition with_prep_turn (x : bool) (s : LaneFollowNode) :=
  mkNode (proportional s) (offset s) (velocity s) (speed s) (twist s) (P s)
    (D s) (last_error s) (last_time s) x (stop_timer_reset s)
    (bot_state s) (continue_run s).

Definition with_stop_timer_reset (x : Z) (s : LaneFollowNode) :=
  mkNode (proportional s) (offset s) (velocity s) (speed s) (twist s) (P s)
    (D s) (last_error s) (last_time s) (prep_turn s) x
    (bot_state s) (continue_run s).

Definition with_bot_state (x : BotState) (s : LaneFollowNode) :=
  mkNode (proportional s) (offset s) (velocity s) (speed s) (twist s) (P s)
    (D s) (last_error s) (last_time s) (prep_turn s) (stop_timer_reset s)
    x (continue_run s).

Definition with_continue_run (x : option bool) (s : LaneFollowNode) :=
  mkNode (proportional s) (offset s) (velocity s) (speed s) (twist s) (P s)
    (D s) (last_error s) (last_time s) (prep_turn s) (stop_timer_reset s)
    (bot_state s) x.

(** The gains are fixed by [__init__]; [with_gains] replaces them, for
    statements that range over all gain values. *)
Definition with_gains (kp kd : Q) (s : LaneFollowNode) :=
  mkNode (proportional s) (offset s) (velocity s) (speed s) (twist s) kp kd
    (last_error s) (last_time s) (prep_turn s) (stop_timer_reset s)
    (bot_state s) (continue_run s).

(** ** The method monad: node state, event trace, exceptions

    A raised exception keeps the state changes and the events that came
    before it, as in Python. *)
Definition M (A : Type) : Type :=
  LaneFollowNode -> (exn + A) * LaneFollowNode * list event.

Definition ret {A : Type} (a : A) : M A := fun s => (inr a, s, []).

Definition bind {A B : Type} (c : M A) (k : A -> M B) : M B :=
  fun s =>
    match c s with
    | (inl e, s1, tr1) => (inl e, s1, tr1)
    | (inr a, s1, tr1) =>
        match k a s1 with
        | (r, s2, tr2) => (r, s2, tr1 ++ tr2)
        end
    end.

Definition raise {A : Type} (e : exn) : M A := fun s => (inl e, s, []).

(** [try: c  except: h] with a bare [except]. *)
Definition try_except (c : M unit) (h : M unit) : M unit :=
  fun s =>
    match c s with
    | (inl _, s1, tr1) =>
        match h s1 with
        | (r, s2, tr2) => (r, s2, tr1 ++ tr2)
        end
    | ok => ok
    end.

Definition read {A : Type} (f : LaneFollowNode -> A) : M A :=
  fun s => (inr (f s), s, []).

Definition update (f : LaneFollowNode -> LaneFollowNode) : M unit :=
  fun s => (inr tt, f s, []).

Definition emit (e : event) : M unit := fun s => (inr tt, s, [e]).

Definition of_option {A : Type} (o : option A) (e : exn) : M A :=
  match o with
  | Some a => ret a
  | None => raise e
  end.

Notation "x <- c ;; k" := (bind c (fun x => k))
  (at level 100, c at next level, right associativity).
Notation "c ;; k" := (bind c (fun _ => k))
  (at level 100, right associativity).

(** Python's true division. *)
Definition truediv (a b : Q) : M Q :=
  if Qeq_bool b 0 then raise ZeroDivisionError else ret (a / b)%Q.

(** Results of running a method on a node. *)
Definition outcome {A : Type} (r : (exn + A) * LaneFollowNode * list event)
  : exn + A := fst (fst r).
Definition node_after {A : Type} (r : (exn + A) * LaneFollowNode * list event)
  : LaneFollowNode := snd (fst r).
Definition trace {A : Type} (r : (exn + A) * LaneFollowNode * list event)
  : list event := snd r.

(** ** Shared-field accessors used by the methods *)

Definition lock_acquire : M unit := emit LockAcquire.
Definition lock_release : M unit := emit LockRelease.

Definition set_stop_timer_reset (z : Z) : M unit :=
  update (with_stop_timer_reset z) ;; emit (WriteStopTimer z).

Definition set_prep_turn (b : bool) : M unit :=
  update (with_prep_turn b) ;; emit (WritePrepTurn b).

(** ** [__init__]

    [now] is the value of [rospy.get_time()] at construction; [bs] is the
    freshly built [state_machine.BotState(GOAL_STALL)]. *)
Definition init (now : Q) (bs : BotState) : LaneFollowNode :=
  {| proportional := None;
     offset := if ENGLISH then -220 else 220;
     velocity := 0.36%Q;
     speed := 0.6%Q;
     twist := mkTwist 0.36%Q 0%Q;
     P := 0.049%Q;
     D := (-0.004)%Q;
     last_error := 0;
     last_time := now;
     prep_turn := false;
     stop_timer_reset := 0;
     bot_state := bs;
     continue_run := None |}.

(** ** [general_callback] *)
Definition general_callback (data : string) : M unit :=
  if String.eqb data "shutdown" then emit SignalShutdown
  else if String.eqb data "stop" then update (with_continue_run (Some false))
  else ret tt.

(** ** [is_turning] *)
Definition is_turning : M bool :=
  lock_acquire ;;
  is_turning <- read prep_turn ;;
  lock_release ;;
  ret is_turning.

(** ** [stopline_processing] *)

(** The loop picking the largest admissible red contour; [i] is the loop
    index, the accumulator is [(largest_area, largest_idx)]. *)
Fixpoint pick_stopline (width : Z) (cs : list Contour) (i : Z)
    (largest_area : Q) (largest_idx : Z) : Q * Z :=
  match cs with
  | [] => (largest_area, largest_idx)
  | ctn :: rest =>
      let area := contourArea ctn in
      let '(xmin, ymin, w, h) := boundingRect ctn in
      let xmax := xmin + w in
      if Qgtb area largest_area && Qgtb area 3000
         && Qgtb (inject_Z xmax) (inject_Z width * 0.5)
         && Qgtb (inject_Z width * 0.5) (inject_Z xmin)
      then pick_stopline width rest (i + 1) area i
      else pick_stopline width rest (i + 1) largest_area largest_idx
  end.

(** [contours[idx]] for a non-negative index. *)
Definition contour_at (cs : list Contour) (idx : Z) : M Contour :=
  of_option (nth_error cs (Z.to_nat idx)) IndexError.

Definition stopline_processing (im : Frame) : M unit :=
  let contours := red_contours im in
  let '(_, largest_idx) := pick_stopline (shape1 im) contours 0 0%Q (-1) in
  contour_y <-
    (if negb (largest_idx =? -1) then
       largest_ctn <- contour_at contours largest_idx ;;
       let '(xmin, ymin, w, h) := boundingRect largest_ctn in
       ret (inject_Z ymin + inject_Z h * 0.5)%Q
     else ret 0%Q) ;;
  if Qgtb contour_y 390 then
    lock_acquire ;;
    set_stop_timer_reset STOP_TIMER_RESET_TIME ;;
    set_prep_turn true ;;
    lock_release
  else ret tt.

(** ** [callback] *)

(** The loop searching for the lane; the accumulator is
    [(max_area, max_idx)]. *)
Fixpoint search_lane (cs : list Contour) (i : Z) (max_area : Q) (max_idx : Z)
  : Q * Z :=
  match cs with
  | [] => (max_area, max_idx)
  | c :: rest =>
      let area := contourArea c in
      if Qgtb area max_area
      then search_lane rest (i + 1) area i
      else search_lane rest (i + 1) max_area max_idx
  end.

(** The block of [callback] under the comment "Search for lane in front". *)
Definition search_for_lane (img : Frame) : M unit :=
  let crop_width := shape1 img in
  let contours := road_contours img in
  let '(_, max_idx) := search_lane contours 0 20%Q (-1) in
  if negb (max_idx =? -1) then
    c <- contour_at contours max_idx ;;
    let Mo := moments c in
    try_except
      (qx <- truediv (m10 Mo) (m00 Mo) ;;
       let cx := py_int qx in
       qy <- truediv (m01 Mo) (m00 Mo) ;;
       let cy := py_int qy in
       off <- read offset ;;
       update (with_proportional
                 (Some (cx - py_int (inject_Z crop_width / 2)%Q + off))))
      (ret tt)
  else
    update (with_proportional (Some (-100))).

Definition callback (img : Frame) : M unit :=
  lock_acquire ;;
  stop_timer_reset <- read stop_timer_reset ;;
  set_stop_timer_reset (Z.max 0 (stop_timer_reset - 1)) ;;
  lock_release ;;
  bs <- read bot_state ;;
  if negb (get_lane_following_flag bs) then
    update (with_proportional None)
  else
    bs <- read bot_state ;;
    (if (stop_timer_reset =? 0) && is_expecting_red_stopline bs
     then stopline_processing img else ret tt) ;;
    search_for_lane img.

(** ** [drive]

    [now1] and [now2] are the two readings of [rospy.get_time()] taken in
    the PID branch. *)
Definition drive (now1 now2 : Q) : M unit :=
  turning <- is_turning ;;
  if turning then
    emit (CtlStop 20) ;;
    emit CtlResetPosition ;;
    bs <- read bot_state ;;
    turn_idx <- of_option (decide_turn_at_red_stopline bs) StateMachineError ;;
    bs <- read bot_state ;;
    adv <- of_option (advance_state bs) StateMachineError ;;
    let '(new_stateid, bs') := adv in
    update (with_bot_state bs') ;;
    emit (CtlSetTurnFlag true) ;;
    emit (CtlDriveForTime 0.6 0.6 6) ;;
    sp <- read speed ;;
    (if turn_idx =? 0 then
       emit (CtlDriveForTime (0.58 * sp) (1.42 * sp) 40)
     else if turn_idx =? 1 then
       emit (CtlDriveForTime (0.9 * sp) (1.1 * sp) 75)
     else if turn_idx =? 2 then
       emit (CtlDriveForTime (1.47 * sp) (0.53 * sp) 15)
     else ret tt) ;;
    emit (CtlSetTurnFlag false) ;;
    lock_acquire ;;
    set_prep_turn false ;;
    lock_release
  else
    prop <- read proportional ;;
    (match prop with
     | None =>
         tw <- read twist ;;
         update (with_twist (mkTwist (v tw) 0%Q))
     | Some e =>
         kp <- read P ;;
         let Pterm := (- inject_Z e * kp)%Q in
         le <- read last_error ;;
         lt <- read last_time ;;
         d_error <- truediv (inject_Z (e - le)) (now1 - lt)%Q ;;
         update (with_last_error e) ;;
         update (with_last_time now2) ;;
         kd <- read D ;;
         let Dterm := (d_error * kd)%Q in
         vel <- read velocity ;;
         tw <- read twist ;;
         update (with_twist (mkTwist vel (omega tw))) ;;
         tw <- read twist ;;
         update (with_twist (mkTwist (v tw) (Pterm + Dterm)%Q))
     end) ;;
    tw <- read twist ;;
    emit (Publish tw).

(** ** [hook] *)
Fixpoint publish_times (n : nat) : M unit :=
  match n with
  | O => ret tt
  | S n' => (tw <- read twist ;; emit (Publish tw)) ;; publish_times n'
  end.

Definition hook : M unit :=
  tw <- read twist ;;
  update (with_twist (mkTwist 0%Q (omega tw))) ;;
  tw <- read twist ;;
  update (with_twist (mkTwist (v tw) 0%Q)) ;;
  tw <- read twist ;;
  emit (Publish tw) ;;
  publish_times 8.

(** ** The program: [__main__] and the rospy dispatch

    The main thread runs [while not rospy.is_shutdown(): node.drive();
    rate.sleep()]; the subscriber threads run [callback] on every image and
    [general_callback] on every message of [/general].  A run is a sequence
    of such activities, each method call taken as one step.  The two
    threads share [prep_turn] and [stop_timer_reset] only inside the
    critical sections of [self.lock]; [stop_timer_reset] is written by
    [callback] alone.

    - [callback] never raises (lemma [callback_cases]).

    - An exception escaping [drive] ends the main thread, and the program
      with it.
    - [rospy.signal_shutdown] makes [rospy.is_shutdown()] true, so the loop
      exits.  The file registers no shutdown handler (there is no
      [rospy.on_shutdown] call and nothing calls [hook]), so nothing more
      is emitted. *)
Inductive activity : Type :=
| Perceive (img : Frame)
| Control (now1 now2 : Q)
| General (data : string).

Definition is_shutdown_signal (e : event) : bool :=
  match e with
  | SignalShutdown => true
  | _ => false
  end.

Fixpoint run (acts : list activity) (s : LaneFollowNode)
  : LaneFollowNode * list event :=
  match acts with
  | [] => (s, [])
  | Perceive img :: rest =>
      let r := callback img s in
      let r' := run rest (node_after r) in
      (fst r', trace r ++ snd r')
  | Control now1 now2 :: rest =>
      let r := drive now1 now2 s in
      match outcome r with
      | inl _ => (node_after r, trace r)
      | inr _ =>
          let r' := run rest (node_after r) in
          (fst r', trace r ++ snd r')
      end
  | General data :: rest =>
      let r := general_callback data s in
      if existsb is_shutdown_signal (trace r) then (node_after r, trace r)
      else
        let r' := run rest (node_after r) in
        (fst r', trace r ++ snd r')
  end.

End Node.

Arguments LaneFollowNode : clear implicits.
Arguments M : clear implicits.

(** ** Reading traces *)

(** The velocity commands published on [car_cmd_switch_node/cmd]. *)
Definition publications (tr : list event) : list Twist2DStamped :=
  flat_map (fun e => match e with Publish tw => [tw] | _ => [] end) tr.

(** The last velocity command of a trace. *)
Definition last_command (tr : list event) : option Twist2DStamped :=
  last (map Some (publications tr)) None.

(** The timed wheel commands given to the dead-reckoning controller. *)
Definition drive_commands (tr : list event) : list (Q * Q * Z) :=
  flat_map (fun e => match e with
                     | CtlDriveForTime l r t => [(l, r, t)]
                     | _ => []
                     end) tr.

(** The values written to [prep_turn]. *)
Definition prep_turn_writes (tr : list event) : list bool :=
  flat_map (fun e => match e with WritePrepTurn b => [b] | _ => [] end) tr.

(** The values written to [stop_timer_reset]. *)
Definition stop_timer_writes (tr : list event) : list Z :=
  flat_map (fun e => match e with WriteStopTimer z => [z] | _ => [] end) tr.

(** Number of stop-line triggers, i.e. of writes [prep_turn = True]. *)
Definition triggers (tr : list event) : nat :=
  List.length (filter (fun b => b) (prep_turn_writes tr)).

Definition is_drive_command (e : event) : bool :=
  match e with
  | CtlDriveForTime _ _ _ => true
  | _ => false
  end.

Definition is_prep_turn_clear (e : event) : bool :=
  match e with
  | WritePrepTurn false => true
  | _ => false
  end.

(** The events that precede the first timed wheel command. *)
Fixpoint before_driving (tr : list event) : list event :=
  match tr with
  | [] => []
  | e :: rest => if is_drive_command e then [] else e :: before_driving rest
  end.

(** [prep_turn] is cleared before the first timed wheel command. *)
Definition cleared_at_maneuver_start (tr : list event) : bool :=
  existsb is_prep_turn_clear (before_driving tr).

(** Number of [Perceive] activities in a run. *)
Definition frames (acts : list activity) : nat :=
  List.length (filter (fun a => match a with Perceive _ => true | _ => false end)
            acts).

(** ** Closed forms used in the statements *)

(** The angular velocity computed by the PID branch of [drive] for the
    lateral error [e] when the clock reads [now1]. *)
Definition pid_omega {BotState : Type} (s : LaneFollowNode BotState)
    (e : Z) (now1 : Q) : Q :=
  (- inject_Z e * P s
   + inject_Z (e - last_error s) / (now1 - last_time s) * D s)%Q.

(** The second timed command of a maneuver, by turn identifier. *)
Definition turn_commands (sp : Q) (turn_idx : Z) : list event :=
  if turn_idx =? 0 then [CtlDriveForTime (0.58 * sp) (1.42 * sp) 40]
  else if turn_idx =? 1 then [CtlDriveForTime (0.9 * sp) (1.1 * sp) 75]
  else if turn_idx =? 2 then [CtlDriveForTime (1.47 * sp) (0.53 * sp) 15]
  else [].

(** The events of a whole maneuver. *)
Definition maneuver_trace (sp : Q) (turn_idx : Z) : list event :=
  [LockAcquire; LockRelease; CtlStop 20; CtlResetPosition;
   CtlSetTurnFlag true; CtlDriveForTime 0.6 0.6 6]
  ++ turn_commands sp turn_idx
  ++ [CtlSetTurnFlag false; LockAcquire; WritePrepTurn false; LockRelease].

(** The events of the timer update that opens every [callback]. *)
Definition timer_tick (old : Z) : list event :=
  [LockAcquire; WriteStopTimer (Z.max 0 (old - 1)); LockRelease].

(** The events of a stop-line trigger. *)
Definition trigger_trace : list event :=
  [LockAcquire; WriteStopTimer STOP_TIMER_RESET_TIME; WritePrepTurn true;
   LockRelease].

(** States the program can be in: those reached from a freshly constructed
    node by some run. *)
Definition reachable {BotState : Type} {SM : StateMachine BotState}
    (s : LaneFollowNode BotState) : Prop :=
  exists now bs acts, s = fst (run acts (init now bs)).

(** The possible results of one call of [drive]. *)
Inductive drive_result {BotState : Type} {SM : StateMachine BotState}
    (s : LaneFollowNode BotState) (now1 now2 : Q)
  : (exn + unit) * LaneFollowNode BotState * list event -> Prop :=
| DriveLaneLost :
    prep_turn s = false ->
    proportional s = None ->
    drive_result s now1 now2
      (inr tt, with_twist (mkTwist (v (twist s)) 0%Q) s,
       [LockAcquire; LockRelease; Publish (mkTwist (v (twist s)) 0%Q)])
| DrivePid e :
    prep_turn s = false ->
    proportional s = Some e ->
    ~ (now1 - last_time s == 0)%Q ->
    drive_result s now1 now2
      (inr tt,
       with_twist (mkTwist (velocity s) (pid_omega s e now1))
         (with_last_time now2 (with_last_error e s)),
       [LockAcquire; LockRelease;
        Publish (mkTwist (velocity s) (pid_omega s e now1))])
| DriveZeroInterval e :
    prep_turn s = false ->
    proportional s = Some e ->
    (now1 - last_time s == 0)%Q ->
    drive_result s now1 now2
      (inl ZeroDivisionError, s, [LockAcquire; LockRelease])
| DriveManeuver turn_idx sid bs' :
    prep_turn s = true ->
    decide_turn_at_red_stopline (bot_state s) = Some turn_idx ->
    advance_state (bot_state s) = Some (sid, bs') ->
    drive_result s now1 now2
      (inr tt, with_prep_turn false (with_bot_state bs' s),
       maneuver_trace (speed s) turn_idx)
| DriveManeuverFails :
    prep_turn s = true ->
    decide_turn_at_red_stopline (bot_state s) = None
    \/ advance_state (bot_state s) = None ->
    drive_result s now1 now2
      (inl StateMachineError, s,
       [LockAcquire; LockRelease; CtlStop 20; CtlResetPosition]).

(** What holds of every node the program can reach: the configuration set
    by [__init__] is never changed, the published linear velocity is the
    cruise velocity, and the cooldown counter stays within its range. *)
Definition node_inv {BotState : Type} (s : LaneFollowNode BotState) : Prop :=
  v (twist s) = 0.36%Q /\ velocity s = 0.36%Q /\ speed s = 0.6%Q
  /\ offset s = 220
  /\ 0 <= stop_timer_reset s <= STOP_TIMER_RESET_TIME.

(** A command that stops the vehicle: both velocities zero. *)
Definition is_zero_command (tw : Twist2DStamped) : bool :=
  Qeq_bool (v tw) 0 && Qeq_bool (omega tw) 0.

(** ** The state machine, from the specification *)

(** Modelled from the spec: [state_machine.BotState], whose module is not
    embedded here.  The specification describes it as a goal plan (an
    ordered sequence of turn identifiers), a count of visited stop lines and
    the lane-following flag; [decide_turn] returns the planned turn at index
    [visited_stop_count], [advance] increments the count.  Indexing past the
    end of the plan raises; stop lines are expected while planned turns
    remain. *)
Record SpecBotState : Type := mkSpecBotState {
  goal_plan : list Z;
  visited_stop_count : nat;
  lane_following_enabled : bool
}.

(** Modelled from the spec: the four methods of [state_machine.BotState]
    that the node calls, on [SpecBotState]. *)
#[export] Instance SpecStateMachine : StateMachine SpecBotState := {
  get_lane_following_flag := lane_following_enabled;
  is_expecting_red_stopline bs :=
    (visited_stop_count bs <? List.length (goal_plan bs))%nat;
  decide_turn_at_red_stopline bs :=
    nth_error (goal_plan bs) (visited_stop_count bs);
  advance_state bs :=
    Some (Z.of_nat (S (visited_stop_count bs)),
          mkSpecBotState (goal_plan bs) (S (visited_stop_count bs))
            (lane_following_enabled bs))
}.

(** ** Concrete inputs used in the examples *)

(** A plan LEFT (0), RIGHT (2), STRAIGHT (1), nothing visited yet. *)
Definition bot0 : SpecBotState := mkSpecBotState [0; 2; 1] 0 true.

(** The node right after construction at time 0. *)
Definition node0 : LaneFollowNode SpecBotState := init 0%Q bot0.

(** A region of the given area whose centroid has abscissa [cx]:
    [m00] is the area and [m10 = cx * m00]. *)
Definition region (area : Q) (cx : Q) (box : Z * Z * Z * Z) : Contour :=
  mkContour area (mkMoments area (cx * area)%Q 0%Q) box.

(** A 640-pixel-wide frame with no road-coloured region and no red region. *)
Definition empty_frame : Frame := mkFrame 640 [] [].

(** A 640-pixel-wide frame whose only road-coloured region has area 20. *)
Definition faint_frame : Frame :=
  mkFrame 640 [region 20%Q 300%Q (290, 50, 20, 20)] [].

(** A 640-pixel-wide frame with one road-coloured region of area 500 and
    centroid abscissa 300. *)
Definition lane_frame : Frame :=
  mkFrame 640 [region 500%Q 300%Q (280, 40, 40, 40)] [].

(** A frame with a red stop line across the centre line, low in the image
    ([ymin + height * 0.5 = 420 > 390]), and the lane region of
    [lane_frame]. *)
Definition stopline_frame : Frame :=
  mkFrame 640 [region 500%Q 300%Q (280, 40, 40, 40)]
    [region 4000%Q 320%Q (200, 400, 240, 40)].

(** The node with a stop-line trigger pending. *)
Definition node_turning : LaneFollowNode SpecBotState :=
  with_prep_turn true node0.

(** The node with a lane detected 10 pixels off and no trigger pending. *)
Definition node_tracking : LaneFollowNode SpecBotState :=
  with_proportional (Some 10) node0.

(** ** More readers and inputs, for the properties beyond the claims *)

(** The calls on the dead-reckoning controller. *)
Definition is_controller_call (e : event) : bool :=
  match e with
  | CtlStop _ | CtlResetPosition | CtlSetTurnFlag _
  | CtlDriveForTime _ _ _ => true
  | _ => false
  end.

Definition controller_calls (tr : list event) : list event :=
  filter is_controller_call tr.

(** Number of maneuvers begun: every maneuver opens with
    [self.controller.stop(20)], and nothing else calls [stop]. *)
Definition maneuvers (tr : list event) : nat :=
  List.length
    (filter (fun e => match e with CtlStop _ => true | _ => false end) tr).


(** The bounding box of [c] has its left edge left of the vertical centre
    line of an image [width] pixels wide, and its right edge right of it. *)
Definition straddles_centre (width : Z) (c : Contour) : Prop :=
  let '(xmin, _, w, _) := boundingRect c in
  (inject_Z xmin < inject_Z width * 0.5)%Q
  /\ (inject_Z width * 0.5 < inject_Z (xmin + w))%Q.

(** The image row of the centre of the bounding box of [c]:
    [ymin + height * 0.5]. *)
Definition centre_row (c : Contour) : Q :=
  let '(_, ymin, _, h) := boundingRect c in
  (inject_Z ymin + inject_Z h * 0.5)%Q.

(** A plan whose only turn identifier is none of 0, 1, 2. *)
Definition bot_odd : SpecBotState := mkSpecBotState [7] 0 true.

(** A plan that is exhausted: the next [decide_turn] raises. *)
Definition bot_done : SpecBotState := mkSpecBotState [0] 1 true.

(** Lane following switched off. *)
Definition bot_off : SpecBotState := mkSpecBotState [0; 2; 1] 0 false.

(** A 640-pixel-wide frame with three road-coloured regions, of areas 100,
    900 and 900; the first region of area 900 has centroid abscissa 350. *)
Definition three_region_frame : Frame :=
  mkFrame 640
    [region 100%Q 10%Q (0, 0, 10, 10);
     region 900%Q 350%Q (330, 40, 40, 40);
     region 900%Q 500%Q (480, 40, 40, 40)] [].

(** A 640-pixel-wide frame whose largest road-coloured region has area 900
    but a vanishing zeroth moment. *)
Definition degenerate_frame : Frame :=
  mkFrame 640
    [region 100%Q 10%Q (0, 0, 10, 10);
     mkContour 900%Q (mkMoments 0%Q 0%Q 0%Q) (330, 40, 40, 40)] [].

(** * The AprilTag node

    Source: [packages/apriltag_node/src/apriltag_node.py].

    The node decodes every eighth camera frame, runs the tag detector on
    it, publishes the array of detections and then, per tag, its distance
    and (when in range) its identifier.  Image decoding, undistortion and
    the detector are a black box: a frame is represented by its header and
    by the tags the detector finds in it, and a tag by its identifier and
    by [np.linalg.norm(det.pose_t)]. *)
Module AprilTag.

Definition IGNORE_DISTANCE_MAX : Q := 0.85.
Definition IGNORE_DISTANCE_MIN : Q := 0.0.

(** One detection, as far as the node reads it. *)
Record Tag : Type := mkTag {
  tag_id : Z;
  pose_t_norm : Q      (* np.linalg.norm(det.pose_t) *)
}.

(** A [CompressedImage] message: the header fields copied into the
    detections message, and what [self.detector.detect] returns for the
    image. *)
Record CompressedImage : Type := mkImage {
  stamp : Z;
  frame_id : string;
  detected_tags : list Tag
}.

Inductive event : Type :=
(* self.detections_pub.publish(tags_msg): header, then the tag_id of each
   entry of tags_msg.detections *)
| PubDetections (stamp : Z) (frame_id : string) (ids : list Z)
(* self.tag_distance_pub.publish(String(f'{id} {distance}')) *)
| PubTagDistance (id : Z) (distance : Q)
(* self.tag_pub.publish(Int32(id)) *)
| PubTagId (id : Z)
(* rospy.signal_shutdown(...) *)
| SignalShutdown.

Record MLNode : Type := mkMLNode { seq : Z; timer : Z }.

(** [__init__], as far as the fields read later are concerned. *)
Definition init : MLNode := mkMLNode 0 0.

Definition general_callback (data : string) (s : MLNode)
  : MLNode * list event :=
  if String.eqb data "shutdown" then (s, [SignalShutdown]) else (s, []).

Fixpoint process_tags (tags : list Tag) : list event :=
  match tags with
  | [] => []
  | det :: rest =>
      let id := tag_id det in
      let distance := pose_t_norm det in
      PubTagDistance id distance
      :: (if Qgtb distance IGNORE_DISTANCE_MAX
             || Qgtb IGNORE_DISTANCE_MIN distance
          then process_tags rest
          else PubTagId id :: process_tags rest)
  end.

Definition callback (msg : CompressedImage) (s : MLNode)
  : MLNode * list event :=
  let s1 := mkMLNode (seq s) (timer s + 1) in
  if timer s1 mod 8 =? 0 then
    let tags := detected_tags msg in
    (s1,
     PubDetections (stamp msg) (frame_id msg) (map tag_id tags)
     :: process_tags tags)
  else (s1, []).

(** [rospy.spin()]: the image callbacks, in arrival order. *)
Fixpoint spin (msgs : list CompressedImage) (s : MLNode)
  : MLNode * list event :=
  match msgs with
  | [] => (s, [])
  | msg :: rest =>
      let r := callback msg s in
      let r' := spin rest (fst r) in
      (fst r', snd r ++ snd r')
  end.

(** Number of frames that were processed: one detections message each. *)
Definition processed (tr : list event) : Z :=
  Z.of_nat
    (List.length
       (filter (fun e => match e with PubDetections _ _ _ => true
                                 | _ => false end) tr)).

(** The identifiers published on [detected_tagid]. *)
Definition tag_ids (tr : list event) : list Z :=
  flat_map (fun e => match e with PubTagId id => [id] | _ => [] end) tr.

(** The messages published on [detected_tag_distance]. *)
Definition tag_distances (tr : list event) : list (Z * Q) :=
  flat_map (fun e => match e with
                     | PubTagDistance id d => [(id, d)]
                     | _ => []
                     end) tr.

(** A tag is in range when its distance is neither above
    [IGNORE_DISTANCE_MAX] nor below [IGNORE_DISTANCE_MIN]. *)
Definition in_range (det : Tag) : bool :=
  Qle_bool IGNORE_DISTANCE_MIN (pose_t_norm det)
  && Qle_bool (pose_t_norm det) IGNORE_DISTANCE_MAX.

End AprilTag.

(** ** Stop-line candidates and further inputs *)

(** The part of the test in the loop of [stopline_processing] that does
    not depend on the regions seen before: area above 3000, right edge
    right of the centre line, left edge left of it. *)
Definition stopline_candidate (width : Z) (c : Contour) : bool :=
  let '(xmin, _, w, _) := boundingRect c in
  Qgtb (contourArea c) 3000
  && Qgtb (inject_Z (xmin + w)) (inject_Z width * 0.5)
  && Qgtb (inject_Z width * 0.5) (inject_Z xmin).


(** A red region across the centre line but high in the image (centre at
    row 120), larger than the low one of [stopline_frame]. *)
Definition far_line : Contour := region 9000%Q 320%Q (100, 100, 440, 40).

(** The low red region of [stopline_frame]. *)
Definition near_line : Contour := region 4000%Q 320%Q (200, 400, 240, 40).

(** A large red region entirely left of the centre line, low in the
    image. *)
Definition side_patch : Contour := region 20000%Q 100%Q (0, 400, 200, 60).

(** A frame showing, in this order, the side patch, the near line and the
    far line. *)
Definition two_line_frame : Frame :=
  mkFrame 640 [] [side_patch; near_line; far_line].

(** Tags at 0.5 m, exactly 0.85 m, 0.9 m and 0 m. *)
Definition tags_seen : list AprilTag.Tag :=
  [AprilTag.mkTag 58 0.5%Q; AprilTag.mkTag 133 0.85%Q;
   AprilTag.mkTag 62 0.9%Q; AprilTag.mkTag 169 0%Q].

Definition image_seen : AprilTag.CompressedImage :=
  AprilTag.mkImage 17 "camera" tags_seen.

(** * Properties *)

Section Properties.

Context {BotState : Type} {SM : StateMachine BotState}.

Implicit Types (s : LaneFollowNode BotState) (img : Frame) (tr : list event).

(** Unfolds the monadic plumbing of a method run on a node. *)
Ltac step_method :=
  cbv beta iota delta
    [bind ret raise read update emit of_option lock_acquire lock_release
     set_prep_turn set_stop_timer_reset is_turning outcome node_after trace
     fst snd];
  cbn [app].

(** ** The PID branch of [drive] *)

Lemma drive_lane_lost s now1 now2 :
  prep_turn s = false ->
  proportional s = None ->
  drive now1 now2 s =
    (inr tt, with_twist (mkTwist (v (twist s)) 0%Q) s,
     [LockAcquire; LockRelease; Publish (mkTwist (v (twist s)) 0%Q)]).
Proof.
  intros Hturn Hprop. unfold drive. step_method.
  rewrite Hturn. cbn. rewrite Hprop. reflexivity.
Qed.

Lemma truediv_nonzero (a b : Q) s :
  ~ (b == 0)%Q -> truediv a b s = (inr (a / b)%Q, s, []).
Proof.
  intros Hb. unfold truediv.
  destruct (Qeq_bool b 0) eqn:E.
  - apply Qeq_bool_eq in E. contradiction.
  - reflexivity.
Qed.

Lemma truediv_zero (a b : Q) s :
  (b == 0)%Q -> truediv a b s = (inl ZeroDivisionError, s, []).
Proof.
  intros Hb. unfold truediv.
  rewrite (Qeq_eq_bool _ _ Hb). reflexivity.
Qed.

Lemma drive_pid s e now1 now2 :
  prep_turn s = false ->
  proportional s = Some e ->
  ~ (now1 - last_time s == 0)%Q ->
  drive now1 now2 s =
    (inr tt,
     with_twist (mkTwist (velocity s) (pid_omega s e now1))
       (with_last_time now2 (with_last_error e s)),
     [LockAcquire; LockRelease;
      Publish (mkTwist (velocity s) (pid_omega s e now1))]).
Proof.
  intros Hturn Hprop Hdt. unfold drive. step_method.
  rewrite Hturn. cbn. rewrite Hprop.
  rewrite (truediv_nonzero _ _ _ Hdt). reflexivity.
Qed.

Lemma drive_pid_zero_interval s e now1 now2 :
  prep_turn s = false ->
  proportional s = Some e ->
  (now1 - last_time s == 0)%Q ->
  drive now1 now2 s =
    (inl ZeroDivisionError, s, [LockAcquire; LockRelease]).
Proof.
  intros Hturn Hprop Hdt. unfold drive. step_method.
  rewrite Hturn. cbn. rewrite Hprop.
  rewrite (truediv_zero _ _ _ Hdt). reflexivity.
Qed.

(** ** The maneuver branch of [drive] *)

Lemma drive_maneuver s now1 now2 turn_idx sid bs' :
  prep_turn s = true ->
  decide_turn_at_red_stopline (bot_state s) = Some turn_idx ->
  advance_state (bot_state s) = Some (sid, bs') ->
  drive now1 now2 s =
    (inr tt, with_prep_turn false (with_bot_state bs' s),
     maneuver_trace (speed s) turn_idx).
Proof.
  intros Hturn Hdec Hadv. unfold drive, maneuver_trace, turn_commands.
  step_method. rewrite Hturn. cbn. rewrite Hdec. cbn. rewrite Hadv. cbn.
  destruct (turn_idx =? 0); [reflexivity|].
  destruct (turn_idx =? 1); [reflexivity|].
  destruct (turn_idx =? 2); reflexivity.
Qed.

Lemma drive_maneuver_fails s now1 now2 :
  prep_turn s = true ->
  decide_turn_at_red_stopline (bot_state s) = None
  \/ advance_state (bot_state s) = None ->
  drive now1 now2 s =
    (inl StateMachineError, s,
     [LockAcquire; LockRelease; CtlStop 20; CtlResetPosition]).
Proof.
  intros Hturn Hfail. unfold drive. step_method. rewrite Hturn. cbn.
  destruct (decide_turn_at_red_stopline (bot_state s)) as [t|]; cbn.
  - destruct Hfail as [Hd|Ha]; [discriminate|]. rewrite Ha. reflexivity.
  - reflexivity.
Qed.

(** ** The contour loops return [-1] or a valid index *)

Lemma search_lane_index cs : forall i a idx,
  snd (search_lane cs i a idx) = idx
  \/ i <= snd (search_lane cs i a idx) < i + Z.of_nat (List.length cs).
Proof.
  induction cs as [|c rest IH]; intros i a idx; cbn [search_lane].
  - left. reflexivity.
  - destruct (Qgtb (contourArea c) a).
    + right. destruct (IH (i + 1) (contourArea c) i) as [E|E];
        cbn [List.length]; lia.
    + destruct (IH (i + 1) a idx) as [E|E]; [left; exact E|].
      right. cbn [List.length]. lia.
Qed.

Lemma pick_stopline_index w cs : forall i a idx,
  snd (pick_stopline w cs i a idx) = idx
  \/ i <= snd (pick_stopline w cs i a idx) < i + Z.of_nat (List.length cs).
Proof.
  induction cs as [|c rest IH]; intros i a idx; cbn [pick_stopline].
  - left. reflexivity.
  - destruct (boundingRect c) as [[[xmin ymin] wd] ht].
    match goal with |- context [if ?b then _ else _] => destruct b end.
    + right. destruct (IH (i + 1) (contourArea c) i) as [E|E];
        cbn [List.length]; lia.
    + destruct (IH (i + 1) a idx) as [E|E]; [left; exact E|].
      right. cbn [List.length]. lia.
Qed.

Lemma contour_at_valid cs idx s :
  0 <= idx < Z.of_nat (List.length cs) ->
  exists c, nth_error cs (Z.to_nat idx) = Some c
            /\ contour_at cs idx s = (inr c, s, []).
Proof.
  intros Hidx. unfold contour_at.
  destruct (nth_error cs (Z.to_nat idx)) as [c|] eqn:E.
  - exists c. split; reflexivity.
  - apply nth_error_None in E. lia.
Qed.

(** ** [stopline_processing]: nothing, or one trigger *)

Lemma stopline_processing_cases img s :
  stopline_processing img s = (inr tt, s, [])
  \/ stopline_processing img s =
       (inr tt,
        with_prep_turn true (with_stop_timer_reset STOP_TIMER_RESET_TIME s),
        trigger_trace).
Proof.
  unfold stopline_processing.
  pose proof (pick_stopline_index (shape1 img) (red_contours img) 0 0%Q (-1))
    as Hidx.
  destruct (pick_stopline (shape1 img) (red_contours img) 0 0%Q (-1))
    as [a idx]. cbn [snd] in Hidx.
  destruct (idx =? -1) eqn:E; cbn [negb].
  - step_method. cbn. left. reflexivity.
  - apply Z.eqb_neq in E.
    destruct (contour_at_valid (red_contours img) idx s) as [c [_ Hc]];
      [lia|].
    step_method. rewrite Hc.
    destruct (boundingRect c) as [[[xmin ymin] wd] ht].
    destruct (Qgtb (inject_Z ymin + inject_Z ht * 0.5) 390);
      [right | left]; reflexivity.
Qed.

(** ** [search_for_lane]: only [proportional] can change *)

Lemma with_proportional_same s : with_proportional (proportional s) s = s.
Proof. destruct s. reflexivity. Qed.

Lemma search_for_lane_cases img s :
  exists x, search_for_lane img s = (inr tt, with_proportional x s, []).
Proof.
  unfold search_for_lane.
  pose proof (search_lane_index (road_contours img) 0 20%Q (-1)) as Hidx.
  destruct (search_lane (road_contours img) 0 20%Q (-1)) as [a idx].
  cbn [snd] in Hidx.
  destruct (idx =? -1) eqn:E; cbn [negb].
  - exists (Some (-100)). reflexivity.
  - apply Z.eqb_neq in E.
    destruct (contour_at_valid (road_contours img) idx s) as [c [_ Hc]];
      [lia|].
    step_method. rewrite Hc. unfold try_except, truediv. step_method.
    destruct (Qeq_bool (m00 (moments c)) 0).
    + exists (proportional s). cbn. rewrite with_proportional_same.
      reflexivity.
    + eexists. cbn. reflexivity.
Qed.

(** ** [callback]: the timer update, then at most one trigger *)

Lemma callback_disabled img s :
  get_lane_following_flag (bot_state s) = false ->
  callback img s =
    (inr tt,
     with_proportional None
       (with_stop_timer_reset (Z.max 0 (stop_timer_reset s - 1)) s),
     timer_tick (stop_timer_reset s)).
Proof.
  intros Hflag. unfold callback. step_method. cbn. rewrite Hflag.
  reflexivity.
Qed.

Lemma callback_cases img s :
  let s1 := with_stop_timer_reset (Z.max 0 (stop_timer_reset s - 1)) s in
  exists x,
    callback img s =
      (inr tt, with_proportional x s1, timer_tick (stop_timer_reset s))
    \/ (stop_timer_reset s = 0
        /\ get_lane_following_flag (bot_state s) = true
        /\ is_expecting_red_stopline (bot_state s) = true
        /\ callback img s =
             (inr tt,
              with_proportional x
                (with_prep_turn true
                   (with_stop_timer_reset STOP_TIMER_RESET_TIME s1)),
              timer_tick (stop_timer_reset s) ++ trigger_trace)).
Proof.
  intros s1.
  destruct (get_lane_following_flag (bot_state s)) eqn:Hflag.
  2:{ exists None. left. apply callback_disabled. exact Hflag. }
  unfold callback. step_method. cbn. rewrite Hflag. cbn [negb].
  change (bot_state (with_stop_timer_reset (Z.max 0 (stop_timer_reset s - 1)) s))
    with (bot_state s).
  destruct ((stop_timer_reset s =? 0)
            && is_expecting_red_stopline (bot_state s)) eqn:Hgate; fold s1.
  - apply andb_true_iff in Hgate. destruct Hgate as [Hz Hexp].
    apply Z.eqb_eq in Hz.
    destruct (stopline_processing_cases img s1) as [Hsp|Hsp]; rewrite Hsp.
    + destruct (search_for_lane_cases img s1) as [x Hx]. rewrite Hx.
      exists x. left. reflexivity.
    + destruct (search_for_lane_cases img
                  (with_prep_turn true
                     (with_stop_timer_reset STOP_TIMER_RESET_TIME s1)))
        as [x Hx].
      rewrite Hx. exists x. right. repeat split; assumption || reflexivity.
  - step_method. destruct (search_for_lane_cases img s1) as [x Hx].
    rewrite Hx. exists x. left. reflexivity.
Qed.

(** ** Every call of [drive] is one of five cases *)

Lemma drive_spec s now1 now2 : drive_result s now1 now2 (drive now1 now2 s).
Proof.
  destruct (prep_turn s) eqn:Hturn.
  - destruct (decide_turn_at_red_stopline (bot_state s)) as [t|] eqn:Hdec.
    + destruct (advance_state (bot_state s)) as [[sid bs']|] eqn:Hadv.
      * rewrite (drive_maneuver s now1 now2 t sid bs' Hturn Hdec Hadv).
        apply (DriveManeuver s now1 now2 t sid bs'); assumption.
      * rewrite (drive_maneuver_fails s now1 now2 Hturn (or_intror Hadv)).
        apply DriveManeuverFails; [assumption | right; assumption].
    + rewrite (drive_maneuver_fails s now1 now2 Hturn (or_introl Hdec)).
      apply DriveManeuverFails; [assumption | left; assumption].
  - destruct (proportional s) as [e|] eqn:Hprop.
    + destruct (Qeq_dec (now1 - last_time s) 0) as [Hz|Hnz].
      * rewrite (drive_pid_zero_interval s e now1 now2 Hturn Hprop Hz).
        apply (DriveZeroInterval s now1 now2 e); assumption.
      * rewrite (drive_pid s e now1 now2 Hturn Hprop Hnz).
        apply (DrivePid s now1 now2 e); assumption.
    + rewrite (drive_lane_lost s now1 now2 Hturn Hprop).
      apply DriveLaneLost; assumption.
Qed.

Lemma general_callback_cases data s :
  general_callback data s = (inr tt, s, [SignalShutdown])
  \/ general_callback data s = (inr tt, with_continue_run (Some false) s, [])
  \/ general_callback data s = (inr tt, s, []).
Proof.
  unfold general_callback.
  destruct (String.eqb data "shutdown"); [left; reflexivity|].
  destruct (String.eqb data "stop"); right; [left | right]; reflexivity.
Qed.

(** ** Counting triggers in traces *)

Lemma triggers_app tr1 tr2 :
  triggers (tr1 ++ tr2) = (triggers tr1 + triggers tr2)%nat.
Proof.
  unfold triggers, prep_turn_writes.
  rewrite flat_map_app, filter_app, length_app. reflexivity.
Qed.

Lemma triggers_maneuver sp turn_idx :
  triggers (maneuver_trace sp turn_idx) = 0%nat.
Proof.
  unfold maneuver_trace, turn_commands.
  destruct (turn_idx =? 0); [reflexivity|].
  destruct (turn_idx =? 1); [reflexivity|].
  destruct (turn_idx =? 2); reflexivity.
Qed.

Lemma drive_no_trigger s now1 now2 :
  triggers (trace (drive now1 now2 s)) = 0%nat
  /\ stop_timer_writes (trace (drive now1 now2 s)) = []
  /\ stop_timer_reset (node_after (drive now1 now2 s)) = stop_timer_reset s.
Proof.
  destruct (drive_spec s now1 now2); unfold trace, node_after; cbn [fst snd];
    repeat split; try reflexivity.
  - apply triggers_maneuver.
  - unfold maneuver_trace, turn_commands.
    destruct (turn_idx =? 0); [reflexivity|].
    destruct (turn_idx =? 1); [reflexivity|].
    destruct (turn_idx =? 2); reflexivity.
Qed.

Lemma general_callback_no_trigger data s :
  triggers (trace (general_callback data s)) = 0%nat
  /\ stop_timer_reset (node_after (general_callback data s))
     = stop_timer_reset s.
Proof.
  destruct (general_callback_cases data s) as [E|[E|E]]; rewrite E;
    split; reflexivity.
Qed.

(** ** The invariant of reachable nodes *)

Lemma init_inv (now : Q) (bs : BotState) : node_inv (init now bs).
Proof.
  unfold node_inv, init, STOP_TIMER_RESET_TIME. cbn.
  repeat split; reflexivity || lia.
Qed.

Lemma callback_inv img s : node_inv s -> node_inv (node_after (callback img s)).
Proof.
  unfold node_inv, STOP_TIMER_RESET_TIME.
  intros (Hv & Hvel & Hsp & Hoff & Hlo & Hhi).
  destruct (callback_cases img s) as [x [E|(_ & _ & _ & E)]]; rewrite E;
    unfold node_after; cbn -[Z.max Z.sub]; unfold STOP_TIMER_RESET_TIME;
    repeat split; assumption || lia.
Qed.

Lemma drive_inv s now1 now2 :
  node_inv s -> node_inv (node_after (drive now1 now2 s)).
Proof.
  unfold node_inv. intros (Hv & Hvel & Hsp & Hoff & Hlo & Hhi).
  destruct (drive_spec s now1 now2); unfold node_after; cbn;
    repeat split; assumption.
Qed.

Lemma general_callback_inv data s :
  node_inv s -> node_inv (node_after (general_callback data s)).
Proof.
  intros H. destruct (general_callback_cases data s) as [E|[E|E]]; rewrite E;
    unfold node_after; cbn [fst snd]; exact H.
Qed.

Lemma run_inv acts : forall s, node_inv s -> node_inv (fst (run acts s)).
Proof.
  induction acts as [|a rest IH]; intros s H; cbn [run].
  - exact H.
  - destruct a as [img|now1 now2|data].
    + cbn [fst]. apply IH, callback_inv, H.
    + destruct (outcome (drive now1 now2 s)); cbn [fst].
      * apply drive_inv, H.
      * apply IH, drive_inv, H.
    + destruct (existsb is_shutdown_signal (trace (general_callback data s)));
        cbn [fst].
      * apply general_callback_inv, H.
      * apply IH, general_callback_inv, H.
Qed.

Lemma reachable_inv s : reachable s -> node_inv s.
Proof.
  intros (now & bs & acts & ->). apply run_inv, init_inv.
Qed.

(** ** The cooldown window *)

(** While fewer frames arrive than the counter holds, no trigger is
    produced, whatever the frames show and whatever the control loop and
    the [/general] topic do in between. *)
Lemma cooldown_no_trigger acts : forall s,
  Z.of_nat (frames acts) <= stop_timer_reset s ->
  triggers (snd (run acts s)) = 0%nat.
Proof.
  induction acts as [|a rest IH]; intros s Hwin; cbn [run].
  - reflexivity.
  - destruct a as [img|now1 now2|data].
    + assert (Hpos : Z.of_nat (frames rest) + 1 <= stop_timer_reset s).
      { unfold frames in *. cbn [filter List.length] in Hwin. lia. }
      cbn [snd]. rewrite triggers_app.
      destruct (callback_cases img s) as [x [E|(Hz & _)]]; [|lia].
      rewrite E. unfold trace, node_after. cbn [fst snd].
      rewrite IH; [reflexivity|]. cbn -[Z.max Z.sub]. lia.
    + destruct (drive_no_trigger s now1 now2) as (Ht & _ & Hs).
      assert (Hrest : Z.of_nat (frames rest) <= stop_timer_reset s).
      { unfold frames in *. cbn [filter] in Hwin. exact Hwin. }
      destruct (outcome (drive now1 now2 s)); cbn [snd].
      * exact Ht.
      * rewrite triggers_app, Ht, IH; [reflexivity|]. rewrite Hs. exact Hrest.
    + destruct (general_callback_no_trigger data s) as (Ht & Hs).
      assert (Hrest : Z.of_nat (frames rest) <= stop_timer_reset s).
      { unfold frames in *. cbn [filter] in Hwin. exact Hwin. }
      destruct (existsb is_shutdown_signal (trace (general_callback data s)));
        cbn [snd].
      * exact Ht.
      * rewrite triggers_app, Ht, IH; [reflexivity|]. rewrite Hs. exact Hrest.
Qed.

(** ** Traces of the maneuver *)

Lemma maneuver_trace_split sp turn_idx :
  maneuver_trace sp turn_idx =
    ([LockAcquire; LockRelease; CtlStop 20; CtlResetPosition;
      CtlSetTurnFlag true; CtlDriveForTime 0.6 0.6 6]
     ++ turn_commands sp turn_idx ++ [CtlSetTurnFlag false])
    ++ [LockAcquire; WritePrepTurn false; LockRelease].
Proof.
  unfold maneuver_trace. rewrite <- !app_assoc. reflexivity.
Qed.

Lemma turn_commands_cases sp turn_idx :
  turn_commands sp turn_idx = []
  \/ exists l r t, turn_commands sp turn_idx = [CtlDriveForTime l r t].
Proof.
  unfold turn_commands.
  destruct (turn_idx =? 0); [right; eauto|].
  destruct (turn_idx =? 1); [right; eauto|].
  destruct (turn_idx =? 2); [right; eauto|].
  left. reflexivity.
Qed.

(** ** [hook] publishes nine zero commands *)

Lemma hook_zero_burst s :
  hook s =
    (inr tt, with_twist (mkTwist 0%Q 0%Q) s,
     repeat (Publish (mkTwist 0%Q 0%Q)) 9).
Proof. reflexivity. Qed.

(** ** [general_callback] on ["stop"] *)

Lemma general_callback_stop s :
  general_callback "stop" s = (inr tt, with_continue_run (Some false) s, []).
Proof. reflexivity. Qed.

(** [drive] never reads [continue_run]. *)
Lemma drive_ignores_continue_run s now1 now2 x :
  outcome (drive now1 now2 (with_continue_run x s))
    = outcome (drive now1 now2 s)
  /\ trace (drive now1 now2 (with_continue_run x s))
     = trace (drive now1 now2 s).
Proof.
  destruct (drive_spec s now1 now2) as [Ht Hp|e Ht Hp Hd|e Ht Hp Hd
                                       |t sid bs' Ht Hd Ha|Ht Hf].
  - rewrite (drive_lane_lost (with_continue_run x s) now1 now2 Ht Hp).
    split; reflexivity.
  - rewrite (drive_pid (with_continue_run x s) e now1 now2 Ht Hp Hd).
    split; reflexivity.
  - rewrite (drive_pid_zero_interval (with_continue_run x s) e now1 now2
               Ht Hp Hd).
    split; reflexivity.
  - rewrite (drive_maneuver (with_continue_run x s) now1 now2 t sid bs'
               Ht Hd Ha).
    split; reflexivity.
  - rewrite (drive_maneuver_fails (with_continue_run x s) now1 now2 Ht Hf).
    split; reflexivity.
Qed.

(** ** The lane search *)

Lemma search_lane_below_threshold cs : forall i idx,
  Forall (fun c => contourArea c <= 20)%Q cs ->
  search_lane cs i 20%Q idx = (20%Q, idx).
Proof.
  induction cs as [|c rest IH]; intros i idx Hall; cbn [search_lane].
  - reflexivity.
  - inversion Hall as [|c' rest' Hc Hrest]; subst.
    unfold Qgtb. apply Qle_bool_iff in Hc. rewrite Hc. cbn [negb].
    apply IH. exact Hrest.
Qed.

Lemma search_for_lane_below_threshold img s :
  Forall (fun c => contourArea c <= 20)%Q (road_contours img) ->
  search_for_lane img s = (inr tt, with_proportional (Some (-100)) s, []).
Proof.
  intros Hall. unfold search_for_lane.
  rewrite (search_lane_below_threshold _ 0 (-1) Hall). reflexivity.
Qed.

Lemma search_for_lane_single img s c :
  road_contours img = [c] ->
  (20 < contourArea c)%Q ->
  ~ (m00 (moments c) == 0)%Q ->
  search_for_lane img s =
    (inr tt,
     with_proportional
       (Some (py_int (m10 (moments c) / m00 (moments c))
              - py_int (inject_Z (shape1 img) / 2) + offset s)) s,
     []).
Proof.
  intros Hcs Harea Hm. unfold search_for_lane. rewrite Hcs.
  cbn [search_lane]. unfold Qgtb.
  destruct (Qle_bool (contourArea c) 20) eqn:E.
  { apply Qle_bool_iff in E. exfalso. apply (Qlt_not_le _ _ Harea E). }
  cbn [negb Z.eqb]. unfold contour_at. cbn [Z.to_nat nth_error of_option].
  unfold try_except. step_method.
  rewrite !(truediv_nonzero _ _ _ Hm). reflexivity.
Qed.

(** With lane following enabled, [callback] ends with the lane search,
    run on a node with the same [offset]. *)
Lemma callback_enabled img s :
  get_lane_following_flag (bot_state s) = true ->
  exists s' tr,
    offset s' = offset s
    /\ node_after (callback img s) = node_after (search_for_lane img s')
    /\ callback img s =
         (outcome (search_for_lane img s'),
          node_after (search_for_lane img s'), tr).
Proof.
  intros Hflag.
  set (s1 := with_stop_timer_reset (Z.max 0 (stop_timer_reset s - 1)) s).
  unfold callback. step_method. cbn. rewrite Hflag. cbn [negb].
  change (bot_state (with_stop_timer_reset (Z.max 0 (stop_timer_reset s - 1)) s))
    with (bot_state s).
  destruct ((stop_timer_reset s =? 0)
            && is_expecting_red_stopline (bot_state s)); fold s1.
  - destruct (stopline_processing_cases img s1) as [Hsp|Hsp]; rewrite Hsp.
    + destruct (search_for_lane_cases img s1) as [x Hx]. rewrite Hx.
      exists s1. eexists. rewrite Hx. cbn. repeat split; reflexivity.
    + set (s2 := with_prep_turn true
                   (with_stop_timer_reset STOP_TIMER_RESET_TIME s1)).
      destruct (search_for_lane_cases img s2) as [x Hx]. rewrite Hx.
      exists s2. eexists. rewrite Hx. cbn. repeat split; reflexivity.
  - step_method. destruct (search_for_lane_cases img s1) as [x Hx].
    rewrite Hx. exists s1. eexists. rewrite Hx. cbn.
    repeat split; reflexivity.
Qed.

(** * The claims *)

(** C1.  In continuous (non-turning) mode, when the lateral error is [None],
    [drive] returns normally, sets the angular velocity of the twist to 0 and
    publishes exactly one command, whose angular velocity is 0, for all
    values [kp] and [kd] of the gains [P] and [D]. *)
Theorem drive_none_error_zero_omega s (kp kd : Q) now1 now2 :
  prep_turn s = false ->
  proportional s = None ->
  outcome (drive now1 now2 (with_gains kp kd s)) = inr tt
  /\ omega (twist (node_after (drive now1 now2 (with_gains kp kd s)))) = 0%Q
  /\ map omega (publications (trace (drive now1 now2 (with_gains kp kd s))))
     = [0%Q].
Proof.
  intros Hturn Hprop.
  rewrite (drive_lane_lost (with_gains kp kd s) now1 now2 Hturn Hprop).
  repeat split; reflexivity.
Qed.

(** C2 (amended).  On a PID tick with a lateral error [e] and a nonzero
    elapsed time [now1 - last_time], of either sign, the derivative is
    computed from that elapsed time: the published angular velocity is
    [-e * P + (e - last_error) / (now1 - last_time) * D], and [last_error]
    and [last_time] are updated.  Nothing is skipped and the previous
    output is not carried over. *)
Theorem drive_derivative_unguarded s e now1 now2 :
  prep_turn s = false ->
  proportional s = Some e ->
  ~ (now1 - last_time s == 0)%Q ->
  outcome (drive now1 now2 s) = inr tt
  /\ omega (twist (node_after (drive now1 now2 s))) = pid_omega s e now1
  /\ publications (trace (drive now1 now2 s))
     = [mkTwist (velocity s) (pid_omega s e now1)]
  /\ last_error (node_after (drive now1 now2 s)) = e
  /\ last_time (node_after (drive now1 now2 s)) = now2.
Proof.
  intros Hturn Hprop Hdt. rewrite (drive_pid s e now1 now2 Hturn Hprop Hdt).
  repeat split; reflexivity.
Qed.

(** C3.  The stop-line trigger is debounced.  If a frame produces a
    trigger, then whatever happens during the cooldown window that follows
    -- up to [STOP_TIMER_RESET_TIME] further frames, each possibly showing
    an eligible stop line, interleaved with any control ticks and [/general]
    messages -- the whole run contains exactly one write [prep_turn = True]. *)
Theorem stopline_trigger_debounced s img acts :
  triggers (trace (callback img s)) = 1%nat ->
  Z.of_nat (frames acts) <= STOP_TIMER_RESET_TIME ->
  triggers (snd (run (Perceive img :: acts) s)) = 1%nat.
Proof.
  intros Hfire Hwin. cbn [run snd]. rewrite triggers_app.
  destruct (callback_cases img s) as [x [E|(_ & _ & _ & E)]];
    rewrite E in *; unfold trace, node_after in *; cbn [fst snd] in *.
  - discriminate Hfire.
  - rewrite cooldown_no_trigger; [reflexivity|]. cbn. exact Hwin.
Qed.

(** C4 (amended).  When the control loop consumes a stop-line trigger and
    the state machine answers, [drive] clears [prep_turn] exactly once,
    inside a critical section of the lock, as the last thing it does: every
    timed wheel command of the maneuver comes before the write, none comes
    after it.  When [drive] returns, [prep_turn] is false. *)
Theorem prep_turn_cleared_at_maneuver_end s now1 now2 turn_idx sid bs' :
  prep_turn s = true ->
  decide_turn_at_red_stopline (bot_state s) = Some turn_idx ->
  advance_state (bot_state s) = Some (sid, bs') ->
  outcome (drive now1 now2 s) = inr tt
  /\ prep_turn_writes (trace (drive now1 now2 s)) = [false]
  /\ (exists before,
        trace (drive now1 now2 s)
          = before ++ [LockAcquire; WritePrepTurn false; LockRelease]
        /\ In (CtlDriveForTime 0.6 0.6 6) before
        /\ drive_commands before = drive_commands (trace (drive now1 now2 s)))
  /\ cleared_at_maneuver_start (trace (drive now1 now2 s)) = false
  /\ prep_turn (node_after (drive now1 now2 s)) = false.
Proof.
  intros Hturn Hdec Hadv.
  rewrite (drive_maneuver s now1 now2 turn_idx sid bs' Hturn Hdec Hadv).
  unfold outcome, trace, node_after. cbn [fst snd].
  split; [reflexivity|]. split.
  { unfold maneuver_trace.
    destruct (turn_commands_cases (speed s) turn_idx) as [E|(l & r & t & E)];
      rewrite E; reflexivity. }
  split.
  { eexists. split; [apply maneuver_trace_split|]. split.
    - cbn. tauto.
    - unfold maneuver_trace.
      destruct (turn_commands_cases (speed s) turn_idx)
        as [E|(l & r & t & E)]; rewrite E; reflexivity. }
  split; reflexivity.
Qed.

(** C7.  For a maneuver with turn identifier 0 and [speed = 0.6], [drive]
    gives the dead-reckoning controller exactly the two timed commands
    [(0.6, 0.6, 6)] and [(0.58 * 0.6, 1.42 * 0.6, 40)], in that order, and
    publishes no continuous-mode command during the call. *)
Theorem maneuver_turn0_commands s now1 now2 sid bs' :
  prep_turn s = true ->
  decide_turn_at_red_stopline (bot_state s) = Some 0 ->
  advance_state (bot_state s) = Some (sid, bs') ->
  speed s = 0.6%Q ->
  outcome (drive now1 now2 s) = inr tt
  /\ trace (drive now1 now2 s) =
       [LockAcquire; LockRelease; CtlStop 20; CtlResetPosition;
        CtlSetTurnFlag true;
        CtlDriveForTime 0.6 0.6 6;
        CtlDriveForTime (0.58 * 0.6) (1.42 * 0.6) 40;
        CtlSetTurnFlag false; LockAcquire; WritePrepTurn false; LockRelease]
  /\ drive_commands (trace (drive now1 now2 s)) =
       [(0.6%Q, 0.6%Q, 6); ((0.58 * 0.6)%Q, (1.42 * 0.6)%Q, 40)]
  /\ publications (trace (drive now1 now2 s)) = [].
Proof.
  intros Hturn Hdec Hadv Hsp.
  rewrite (drive_maneuver s now1 now2 0 sid bs' Hturn Hdec Hadv).
  rewrite Hsp. repeat split; reflexivity.
Qed.

(** C8.  In every reachable node, a [callback] that produces no trigger
    writes [stop_timer_reset] once, with [max(0, old - 1)]: a value between
    0 and the old one, strictly smaller when the old one is positive.  A
    [callback] that produces a trigger found the counter at 0, writes 0 and
    then the cooldown constant.  [drive] never writes the counter. *)
Theorem stop_timer_decreases_until_trigger s img now1 now2 :
  reachable s ->
  ((triggers (trace (callback img s)) = 0%nat
    /\ stop_timer_writes (trace (callback img s))
       = [Z.max 0 (stop_timer_reset s - 1)]
    /\ stop_timer_reset (node_after (callback img s))
       = Z.max 0 (stop_timer_reset s - 1)
    /\ 0 <= Z.max 0 (stop_timer_reset s - 1) <= stop_timer_reset s
    /\ (0 < stop_timer_reset s ->
        Z.max 0 (stop_timer_reset s - 1) < stop_timer_reset s))
   \/
   (triggers (trace (callback img s)) = 1%nat
    /\ stop_timer_reset s = 0
    /\ stop_timer_writes (trace (callback img s))
       = [0; STOP_TIMER_RESET_TIME]
    /\ stop_timer_reset (node_after (callback img s))
       = STOP_TIMER_RESET_TIME))
  /\ stop_timer_writes (trace (drive now1 now2 s)) = [].
Proof.
  intros Hreach.
  destruct (reachable_inv s Hreach) as (_ & _ & _ & _ & Hlo & Hhi).
  split; [|apply drive_no_trigger].
  destruct (callback_cases img s) as [x [E|(Hz & _ & _ & E)]]; rewrite E;
    unfold trace, node_after; cbn [fst snd].
  - left. repeat split; try reflexivity; lia.
  - right. rewrite Hz. repeat split; reflexivity.
Qed.

(** C10.  In every reachable node with no trigger pending and lateral
    error [None], [drive] publishes one command whose angular velocity is 0
    and whose linear velocity is the one already in the twist, which is the
    cruise velocity 0.36 and not zero; the twist keeps that linear
    velocity.  The lateral error is [None] after any [callback] that finds
    the lane-following flag off. *)
Theorem lane_lost_keeps_linear_velocity s now1 now2 :
  reachable s ->
  prep_turn s = false ->
  proportional s = None ->
  publications (trace (drive now1 now2 s)) = [mkTwist (v (twist s)) 0%Q]
  /\ v (twist (node_after (drive now1 now2 s))) = v (twist s)
  /\ v (twist s) = velocity s
  /\ v (twist s) = 0.36%Q
  /\ ~ (v (twist s) == 0)%Q
  /\ (forall img s0,
        get_lane_following_flag (bot_state s0) = false ->
        proportional (node_after (callback img s0)) = None).
Proof.
  intros Hreach Hturn Hprop.
  destruct (reachable_inv s Hreach) as (Hv & Hvel & _).
  rewrite (drive_lane_lost s now1 now2 Hturn Hprop).
  repeat split; try reflexivity.
  - congruence.
  - exact Hv.
  - rewrite Hv. intros H. discriminate H.
  - intros img s0 Hflag. rewrite (callback_disabled img s0 Hflag).
    reflexivity.
Qed.

(** C5 (amended).  With lane following enabled: for a frame whose
    road-coloured regions all have area at most 20, [callback] leaves the
    lateral error at -100; for a 640-pixel-wide frame whose only
    road-coloured region has area 500 and centroid abscissa 300, with
    offset 220, it leaves the lateral error at 300 - 320 + 220 = 200. *)
Theorem perception_scenario s faint lane c :
  get_lane_following_flag (bot_state s) = true ->
  offset s = 220 ->
  Forall (fun c => contourArea c <= 20)%Q (road_contours faint) ->
  road_contours lane = [c] ->
  (contourArea c == 500)%Q ->
  ~ (m00 (moments c) == 0)%Q ->
  py_int (m10 (moments c) / m00 (moments c)) = 300 ->
  shape1 lane = 640 ->
  proportional (node_after (callback faint s)) = Some (-100)
  /\ proportional (node_after (callback lane s)) = Some 200.
Proof.
  intros Hflag Hoff Hfaint Hlane Harea Hm Hcx Hw. split.
  - destruct (callback_enabled faint s Hflag) as (s' & tr & _ & E & _).
    rewrite E, (search_for_lane_below_threshold faint s' Hfaint).
    reflexivity.
  - destruct (callback_enabled lane s Hflag) as (s' & tr & Hoff' & E & _).
    assert (Hbig : (20 < contourArea c)%Q) by (rewrite Harea; reflexivity).
    rewrite E, (search_for_lane_single lane s' c Hlane Hbig Hm).
    unfold node_after. cbn [fst snd with_proportional proportional].
    rewrite Hcx, Hw, Hoff', Hoff. reflexivity.
Qed.

End Properties.

(** * The claims on concrete inputs *)

Lemma node0_reachable : reachable node0.
Proof. exists 0%Q, bot0, []. reflexivity. Qed.

Lemma drive_none_error_zero_omega_witness :
  prep_turn node0 = false
  /\ proportional node0 = None
  /\ outcome (drive 1 1 (with_gains 5 (-3) node0)) = inr tt
  /\ omega (twist (node_after (drive 1 1 (with_gains 5 (-3) node0)))) = 0%Q
  /\ map omega (publications (trace (drive 1 1 (with_gains 5 (-3) node0))))
     = [0%Q].
Proof.
  split; [reflexivity|]. split; [reflexivity|].
  apply (drive_none_error_zero_omega node0 5%Q (-3)%Q 1%Q 1%Q); reflexivity.
Defined.

(** The clock went back by one second between two ticks. *)
Lemma drive_derivative_unguarded_witness :
  (-1 - last_time node_tracking < 0)%Q
  /\ outcome (drive (-1) (-1) node_tracking) = inr tt
  /\ omega (twist (node_after (drive (-1) (-1) node_tracking)))
     = pid_omega node_tracking 10 (-1)
  /\ publications (trace (drive (-1) (-1) node_tracking))
     = [mkTwist (velocity node_tracking) (pid_omega node_tracking 10 (-1))]
  /\ last_error (node_after (drive (-1) (-1) node_tracking)) = 10
  /\ last_time (node_after (drive (-1) (-1) node_tracking)) = (-1)%Q.
Proof.
  split; [reflexivity|].
  apply (drive_derivative_unguarded node_tracking 10 (-1)%Q (-1)%Q).
  - reflexivity.
  - reflexivity.
  - intros H. discriminate H.
Defined.

(** C2, as stated, fails.  With a negative elapsed time the tick returns
    normally and the angular output differs from the previous one, so the
    derivative was not skipped; with a zero elapsed time the division is
    attempted and raises [ZeroDivisionError]. *)
Lemma drive_skips_derivative_counterexample :
  prep_turn node_tracking = false
  /\ proportional node_tracking = Some 10
  /\ (-1 - last_time node_tracking < 0)%Q
  /\ outcome (drive (-1) (-1) node_tracking) = inr tt
  /\ ~ (omega (twist (node_after (drive (-1) (-1) node_tracking)))
        == omega (twist node_tracking))%Q
  /\ (0 - last_time node_tracking == 0)%Q
  /\ outcome (drive 0 0 node_tracking) = inl ZeroDivisionError.
Proof.
  repeat split; try reflexivity.
  intros H. vm_compute in H. discriminate H.
Qed.

(** Two eligible detections, a maneuver in between. *)
Lemma stopline_trigger_debounced_witness :
  triggers (trace (callback stopline_frame node0)) = 1%nat
  /\ triggers (trace (callback stopline_frame
                        (with_stop_timer_reset 0
                           (node_after (callback stopline_frame node0)))))
     = 1%nat
  /\ triggers
       (snd (run [Perceive stopline_frame; Control 1 1;
                  Perceive stopline_frame] node0)) = 1%nat.
Proof.
  split; [reflexivity|]. split; [reflexivity|].
  apply (stopline_trigger_debounced node0 stopline_frame
           [Control 1 1; Perceive stopline_frame]).
  - reflexivity.
  - unfold STOP_TIMER_RESET_TIME. cbn. lia.
Defined.

(** The window is exactly [STOP_TIMER_RESET_TIME] frames long: of 62
    consecutive frames showing the stop line, the first and the last
    produce a trigger. *)
Example stopline_retriggers_after_cooldown :
  triggers (snd (run (repeat (Perceive stopline_frame) 61) node0)) = 1%nat
  /\ triggers (snd (run (repeat (Perceive stopline_frame) 62) node0)) = 2%nat.
Proof. split; vm_compute; reflexivity. Qed.

Lemma prep_turn_cleared_at_maneuver_end_witness :
  prep_turn node_turning = true
  /\ outcome (drive 1 1 node_turning) = inr tt
  /\ prep_turn_writes (trace (drive 1 1 node_turning)) = [false]
  /\ (exists before,
        trace (drive 1 1 node_turning)
          = before ++ [LockAcquire; WritePrepTurn false; LockRelease]
        /\ In (CtlDriveForTime 0.6 0.6 6) before
        /\ drive_commands before
           = drive_commands (trace (drive 1 1 node_turning)))
  /\ cleared_at_maneuver_start (trace (drive 1 1 node_turning)) = false
  /\ prep_turn (node_after (drive 1 1 node_turning)) = false.
Proof.
  split; [reflexivity|].
  apply (prep_turn_cleared_at_maneuver_end node_turning 1%Q 1%Q 0 1
           (mkSpecBotState [0; 2; 1] 1 true)); reflexivity.
Defined.

(** C4, as stated, fails: in a maneuver that runs to completion the write
    that clears [prep_turn] is not among the events that precede the first
    timed wheel command; it is the tenth event, after both commands. *)
Lemma prep_turn_cleared_at_start_counterexample :
  prep_turn node_turning = true
  /\ outcome (drive 1 1 node_turning) = inr tt
  /\ cleared_at_maneuver_start (trace (drive 1 1 node_turning)) <> true
  /\ nth_error (trace (drive 1 1 node_turning)) 5
     = Some (CtlDriveForTime 0.6 0.6 6)
  /\ nth_error (trace (drive 1 1 node_turning)) 9
     = Some (WritePrepTurn false).
Proof.
  repeat split; try reflexivity. intros H. discriminate H.
Qed.

Lemma maneuver_turn0_commands_witness :
  prep_turn node_turning = true
  /\ decide_turn_at_red_stopline (bot_state node_turning) = Some 0
  /\ speed node_turning = 0.6%Q
  /\ outcome (drive 1 1 node_turning) = inr tt
  /\ trace (drive 1 1 node_turning) =
       [LockAcquire; LockRelease; CtlStop 20; CtlResetPosition;
        CtlSetTurnFlag true;
        CtlDriveForTime 0.6 0.6 6;
        CtlDriveForTime (0.58 * 0.6) (1.42 * 0.6) 40;
        CtlSetTurnFlag false; LockAcquire; WritePrepTurn false; LockRelease]
  /\ drive_commands (trace (drive 1 1 node_turning)) =
       [(0.6%Q, 0.6%Q, 6); ((0.58 * 0.6)%Q, (1.42 * 0.6)%Q, 40)]
  /\ publications (trace (drive 1 1 node_turning)) = [].
Proof.
  split; [reflexivity|]. split; [reflexivity|]. split; [reflexivity|].
  apply (maneuver_turn0_commands node_turning 1%Q 1%Q 1
           (mkSpecBotState [0; 2; 1] 1 true)); reflexivity.
Defined.

(** The node after a trigger: the counter is at its reset value. *)
Lemma stop_timer_decreases_until_trigger_witness :
  reachable (fst (run [Perceive stopline_frame] node0))
  /\ stop_timer_reset (fst (run [Perceive stopline_frame] node0)) = 60
  /\ stop_timer_writes
       (trace (callback stopline_frame
                 (fst (run [Perceive stopline_frame] node0)))) = [59]
  /\ stop_timer_writes (trace (callback stopline_frame node0)) = [0; 60].
Proof.
  assert (R : reachable (fst (run [Perceive stopline_frame] node0))).
  { exists 0%Q, bot0, [Perceive stopline_frame]. reflexivity. }
  split; [exact R|]. split; [reflexivity|].
  destruct (stop_timer_decreases_until_trigger
              (fst (run [Perceive stopline_frame] node0))
              stopline_frame 1%Q 1%Q R) as [[H|H] _].
  - split; [apply H | reflexivity].
  - destruct H as (_ & H & _). discriminate H.
Defined.

Lemma lane_lost_keeps_linear_velocity_witness :
  reachable node0
  /\ prep_turn node0 = false
  /\ proportional node0 = None
  /\ publications (trace (drive 1 1 node0)) = [mkTwist 0.36%Q 0%Q]
  /\ v (twist (node_after (drive 1 1 node0))) = 0.36%Q.
Proof.
  split; [exact node0_reachable|]. split; [reflexivity|].
  split; [reflexivity|].
  destruct (lane_lost_keeps_linear_velocity node0 1%Q 1%Q node0_reachable
              eq_refl eq_refl) as (Hpub & Hkeep & _).
  split; [exact Hpub | exact Hkeep].
Defined.

Lemma perception_scenario_witness :
  get_lane_following_flag (bot_state node0) = true
  /\ offset node0 = 220
  /\ proportional (node_after (callback faint_frame node0)) = Some (-100)
  /\ proportional (node_after (callback lane_frame node0)) = Some 200.
Proof.
  split; [reflexivity|]. split; [reflexivity|].
  apply (perception_scenario node0 faint_frame lane_frame
           (region 500%Q 300%Q (280, 40, 40, 40))).
  - reflexivity.
  - reflexivity.
  - constructor; [|constructor]. intros H. discriminate H.
  - reflexivity.
  - reflexivity.
  - intros H. discriminate H.
  - reflexivity.
  - reflexivity.
Defined.

(** C5, as stated, fails: with lane following enabled, a frame with no
    road-coloured region at all, and a frame whose only region has area 20,
    both leave the lateral error at -100, not [None]. *)
Lemma perception_none_counterexample :
  get_lane_following_flag (bot_state node0) = true
  /\ Forall (fun c => contourArea c <= 20)%Q (road_contours empty_frame)
  /\ Forall (fun c => contourArea c <= 20)%Q (road_contours faint_frame)
  /\ proportional (node_after (callback empty_frame node0)) <> None
  /\ proportional (node_after (callback faint_frame node0)) <> None.
Proof.
  split; [reflexivity|]. split; [constructor|]. split.
  { constructor; [|constructor]. intros H. discriminate H. }
  split; intros H; discriminate H.
Qed.

(** C6 on a concrete run.  A lane is seen, then ["stop"] arrives on
    [/general].  The message only creates the attribute [continue_run]; the
    lane-following flag is still on, and the next two control ticks publish
    the cruise velocity 0.36, as they do without the message. *)
Theorem stop_message_keeps_driving :
  let before_stop := fst (run [Perceive lane_frame] node0) in
  let after_stop := fst (run [Perceive lane_frame; General "stop"] node0) in
  after_stop = with_continue_run (Some false) before_stop
  /\ get_lane_following_flag (bot_state after_stop) = true
  /\ map v (publications
              (snd (run [Perceive lane_frame; General "stop";
                         Control 1 1; Control 2 2] node0)))
     = [0.36%Q; 0.36%Q]
  /\ existsb is_zero_command
       (publications
          (snd (run [Perceive lane_frame; General "stop";
                     Control 1 1; Control 2 2] node0))) = false
  /\ snd (run [Perceive lane_frame; General "stop";
               Control 1 1; Control 2 2] node0)
     = snd (run [Perceive lane_frame; Control 1 1; Control 2 2] node0).
Proof. repeat split; vm_compute; reflexivity. Qed.

(** C9 on a concrete run.  A lane is seen, the control loop ticks once,
    then ["shutdown"] arrives on [/general].  [hook] is not run: the last
    command of the run is the one published by the tick, with linear
    velocity 0.36, and no zero command is published at all.  Activities
    after the shutdown add nothing. *)
Theorem shutdown_last_command_not_zero :
  let tr := snd (run [Perceive lane_frame; Control 1 1; General "shutdown"]
                   node0) in
  In SignalShutdown tr
  /\ option_map v (last_command tr) = Some 0.36%Q
  /\ option_map is_zero_command (last_command tr) = Some false
  /\ existsb is_zero_command (publications tr) = false
  /\ snd (run [Perceive lane_frame; Control 1 1; General "shutdown";
               Control 2 2] node0) = tr.
Proof.
  repeat split; try (vm_compute; reflexivity).
  vm_compute. tauto.
Qed.

(** * Properties beyond the claims: the lane-following node *)

Section MoreProperties.

Context {BotState : Type} {SM : StateMachine BotState}.

Implicit Types (s : LaneFollowNode BotState) (img : Frame) (tr : list event).

Ltac run_method :=
  cbv beta iota delta
    [bind ret raise read update emit of_option lock_acquire lock_release
     set_prep_turn set_stop_timer_reset is_turning outcome node_after trace
     fst snd];
  cbn [app].

(** ** Comparisons *)

Lemma Qgtb_lt (a b : Q) : Qgtb a b = true <-> (b < a)%Q.
Proof.
  unfold Qgtb. rewrite negb_true_iff. split.
  - intros H. apply Qnot_le_lt. intros Hle.
    apply Qle_bool_iff in Hle. congruence.
  - intros H. destruct (Qle_bool a b) eqn:E; [|reflexivity].
    apply Qle_bool_iff in E. exfalso. exact (Qlt_not_le _ _ H E).
Qed.

Lemma Qgtb_le (a b : Q) : Qgtb a b = false <-> (a <= b)%Q.
Proof.
  unfold Qgtb. rewrite negb_false_iff. apply Qle_bool_iff.
Qed.

(** ** The lane search loop *)

Lemma search_lane_no_update cs : forall i a idx,
  Forall (fun c => contourArea c <= a)%Q cs ->
  search_lane cs i a idx = (a, idx).
Proof.
  induction cs as [|c rest IH]; intros i a idx Hall; cbn [search_lane].
  - reflexivity.
  - inversion Hall as [|c' rest' Hc Hrest]; subst.
    apply Qgtb_le in Hc. rewrite Hc. apply IH. exact Hrest.
Qed.

Lemma search_lane_first_largest before c after : forall i a idx,
  (a < contourArea c)%Q ->
  Forall (fun x => contourArea x < contourArea c)%Q before ->
  Forall (fun x => contourArea x <= contourArea c)%Q after ->
  search_lane (before ++ c :: after) i a idx
    = (contourArea c, i + Z.of_nat (List.length before)).
Proof.
  induction before as [|b rest IH]; intros i a idx Ha Hbefore Hafter.
  - cbn [app search_lane List.length].
    apply Qgtb_lt in Ha. rewrite Ha.
    rewrite (search_lane_no_update after (i + 1) (contourArea c) i Hafter).
    f_equal. cbn. lia.
  - inversion Hbefore as [|b' rest' Hb Hrest]; subst.
    cbn [app search_lane].
    replace (i + Z.of_nat (List.length (b :: rest)))
      with ((i + 1) + Z.of_nat (List.length rest))
      by (cbn [List.length]; lia).
    destruct (Qgtb (contourArea b) a).
    + apply IH; assumption.
    + apply IH; assumption.
Qed.

Lemma search_lane_max cs : forall i a idx,
  (snd (search_lane cs i a idx) = idx
   /\ fst (search_lane cs i a idx) = a
   /\ Forall (fun c => contourArea c <= a)%Q cs)
  \/ (i <= snd (search_lane cs i a idx)
      /\ (a < fst (search_lane cs i a idx))%Q
      /\ Forall (fun c => contourArea c <= fst (search_lane cs i a idx))%Q cs
      /\ exists c,
           nth_error cs (Z.to_nat (snd (search_lane cs i a idx) - i)) = Some c
           /\ contourArea c = fst (search_lane cs i a idx)).
Proof.
  induction cs as [|c rest IH]; intros i a idx; cbn [search_lane].
  - left. repeat split. constructor.
  - destruct (Qgtb (contourArea c) a) eqn:E.
    + apply Qgtb_lt in E. right.
      destruct (IH (i + 1) (contourArea c) i)
        as [(Hi & Ha & Hall)|(Hi & Ha & Hall & c' & Hn & Hc')].
      * rewrite Hi, Ha. split; [lia|]. split; [exact E|]. split.
        { constructor; [apply Qle_refl | exact Hall]. }
        exists c. rewrite Z.sub_diag. split; reflexivity.
      * split; [lia|]. split; [exact (Qlt_trans _ _ _ E Ha)|]. split.
        { constructor; [apply Qlt_le_weak; exact Ha | exact Hall]. }
        exists c'. split; [|exact Hc'].
        replace (Z.to_nat (snd (search_lane rest (i + 1) (contourArea c) i)
                           - i))
          with (S (Z.to_nat (snd (search_lane rest (i + 1) (contourArea c) i)
                             - (i + 1)))) by lia.
        exact Hn.
    + apply Qgtb_le in E.
      destruct (IH (i + 1) a idx)
        as [(Hi & Ha & Hall)|(Hi & Ha & Hall & c' & Hn & Hc')].
      * left. repeat split; try assumption. constructor; assumption.
      * right. split; [lia|]. split; [exact Ha|]. split.
        { constructor; [|exact Hall].
          exact (Qle_trans _ _ _ E (Qlt_le_weak _ _ Ha)). }
        exists c'. split; [|exact Hc'].
        replace (Z.to_nat (snd (search_lane rest (i + 1) a idx) - i))
          with (S (Z.to_nat (snd (search_lane rest (i + 1) a idx)
                             - (i + 1)))) by lia.
        exact Hn.
Qed.

(** X1.  The lane search returns either [-1], when no road-coloured region
    has an area above 20, or the index of a region whose area is above 20
    and at least the area of every other region; the area it returns is
    that region's. *)
Theorem search_lane_picks_largest (cs : list Contour) :
  (snd (search_lane cs 0 20%Q (-1)) = -1
   /\ Forall (fun c => contourArea c <= 20)%Q cs)
  \/ (exists c,
        0 <= snd (search_lane cs 0 20%Q (-1))
        /\ nth_error cs (Z.to_nat (snd (search_lane cs 0 20%Q (-1)))) = Some c
        /\ contourArea c = fst (search_lane cs 0 20%Q (-1))
        /\ (20 < contourArea c)%Q
        /\ Forall (fun x => contourArea x <= contourArea c)%Q cs).
Proof.
  destruct (search_lane_max cs 0 20%Q (-1))
    as [(Hi & _ & Hall)|(Hi & Ha & Hall & c & Hn & Hc)].
  - left. split; assumption.
  - right. exists c. rewrite Z.sub_0_r in Hn. rewrite Hc.
    repeat split; assumption.
Qed.

(** ** [callback] with lane following enabled *)

Lemma callback_enabled_node img s :
  get_lane_following_flag (bot_state s) = true ->
  exists s',
    offset s' = offset s
    /\ proportional s' = proportional s
    /\ outcome (callback img s) = outcome (search_for_lane img s')
    /\ node_after (callback img s) = node_after (search_for_lane img s').
Proof.
  intros Hflag.
  set (s1 := with_stop_timer_reset (Z.max 0 (stop_timer_reset s - 1)) s).
  unfold callback. run_method. cbn. rewrite Hflag. cbn [negb].
  change (bot_state (with_stop_timer_reset _ s)) with (bot_state s).
  destruct ((stop_timer_reset s =? 0)
            && is_expecting_red_stopline (bot_state s)); fold s1.
  - destruct (stopline_processing_cases img s1) as [Hsp|Hsp]; rewrite Hsp.
    + destruct (search_for_lane_cases img s1) as [x Hx]. rewrite Hx.
      exists s1. rewrite Hx. cbn. repeat split; reflexivity.
    + set (s2 := with_prep_turn true
                   (with_stop_timer_reset STOP_TIMER_RESET_TIME s1)).
      destruct (search_for_lane_cases img s2) as [x Hx]. rewrite Hx.
      exists s2. rewrite Hx. cbn. repeat split; reflexivity.
  - run_method. destruct (search_for_lane_cases img s1) as [x Hx].
    rewrite Hx. exists s1. rewrite Hx. cbn. repeat split; reflexivity.
Qed.

Lemma contour_at_middle before c after s :
  contour_at (before ++ c :: after) (0 + Z.of_nat (List.length before)) s
    = (inr c, s, []).
Proof.
  unfold contour_at. rewrite Z.add_0_l, Nat2Z.id.
  rewrite nth_error_app2 by lia. rewrite Nat.sub_diag. reflexivity.
Qed.

Lemma search_for_lane_selects img s before c after :
  road_contours img = before ++ c :: after ->
  (20 < contourArea c)%Q ->
  Forall (fun x => contourArea x < contourArea c)%Q before ->
  Forall (fun x => contourArea x <= contourArea c)%Q after ->
  search_for_lane img s =
    if Qeq_bool (m00 (moments c)) 0 then (inr tt, s, [])
    else
      (inr tt,
       with_proportional
         (Some (py_int (m10 (moments c) / m00 (moments c))
                - py_int (inject_Z (shape1 img) / 2) + offset s)) s,
       []).
Proof.
  intros Hcs Hbig Hbefore Hafter. unfold search_for_lane. rewrite Hcs.
  rewrite (search_lane_first_largest before c after 0 20%Q (-1)
             Hbig Hbefore Hafter).
  assert (Hne : (0 + Z.of_nat (List.length before) =? -1) = false)
    by (apply Z.eqb_neq; lia).
  rewrite Hne. cbn [negb]. run_method. rewrite contour_at_middle.
  unfold try_except, truediv.
  destruct (Qeq_bool (m00 (moments c)) 0); reflexivity.
Qed.

(** X2.  With lane following enabled, the lateral error left by [callback]
    comes from the first road-coloured region of largest area, provided
    that area is above 20 and the region's zeroth moment is not zero: it is
    [int(m10 / m00) - int(width / 2) + offset]. *)
Theorem callback_error_of_largest_region img s before c after :
  get_lane_following_flag (bot_state s) = true ->
  road_contours img = before ++ c :: after ->
  (20 < contourArea c)%Q ->
  Forall (fun x => contourArea x < contourArea c)%Q before ->
  Forall (fun x => contourArea x <= contourArea c)%Q after ->
  ~ (m00 (moments c) == 0)%Q ->
  outcome (callback img s) = inr tt
  /\ proportional (node_after (callback img s))
     = Some (py_int (m10 (moments c) / m00 (moments c))
             - py_int (inject_Z (shape1 img) / 2) + offset s).
Proof.
  intros Hflag Hcs Hbig Hbefore Hafter Hm.
  destruct (callback_enabled_node img s Hflag) as (s' & Hoff & _ & Ho & Hn).
  rewrite Ho, Hn.
  rewrite (search_for_lane_selects img s' before c after
             Hcs Hbig Hbefore Hafter).
  destruct (Qeq_bool (m00 (moments c)) 0) eqn:E.
  - apply Qeq_bool_eq in E. contradiction.
  - unfold outcome, node_after. cbn. rewrite Hoff. split; reflexivity.
Qed.

(** X3.  With lane following enabled, when the selected region has a zero
    zeroth moment the division by [M['m00']] raises inside the [try], the
    bare [except] swallows it, and [callback] returns normally with the
    lateral error of the previous frame still in place. *)
Theorem callback_zero_moment_keeps_error img s before c after :
  get_lane_following_flag (bot_state s) = true ->
  road_contours img = before ++ c :: after ->
  (20 < contourArea c)%Q ->
  Forall (fun x => contourArea x < contourArea c)%Q before ->
  Forall (fun x => contourArea x <= contourArea c)%Q after ->
  (m00 (moments c) == 0)%Q ->
  outcome (callback img s) = inr tt
  /\ proportional (node_after (callback img s)) = proportional s.
Proof.
  intros Hflag Hcs Hbig Hbefore Hafter Hm.
  destruct (callback_enabled_node img s Hflag) as (s' & _ & Hp & Ho & Hn).
  rewrite Ho, Hn.
  rewrite (search_for_lane_selects img s' before c after
             Hcs Hbig Hbefore Hafter).
  rewrite (Qeq_eq_bool _ _ Hm).
  unfold outcome, node_after. cbn [fst snd]. split; [reflexivity | exact Hp].
Qed.


(** ** Where triggers come from *)

Lemma pick_stopline_candidate w cs : forall i a idx,
  snd (pick_stopline w cs i a idx) = idx
  \/ (i <= snd (pick_stopline w cs i a idx)
      /\ exists c,
           nth_error cs (Z.to_nat (snd (pick_stopline w cs i a idx) - i))
             = Some c
           /\ (3000 < contourArea c)%Q
           /\ straddles_centre w c).
Proof.
  induction cs as [|c rest IH]; intros i a idx; cbn [pick_stopline].
  - left. reflexivity.
  - destruct (boundingRect c) as [[[xmin ymin] wd] ht] eqn:Hbox.
    match goal with |- context [if ?b then _ else _] => destruct b eqn:E end.
    + right.
      apply andb_true_iff in E. destruct E as [E Hleft].
      apply andb_true_iff in E. destruct E as [E Hright].
      apply andb_true_iff in E. destruct E as [_ Harea].
      apply Qgtb_lt in Hleft, Hright, Harea.
      destruct (IH (i + 1) (contourArea c) i) as [Hi|(Hi & c' & Hn & Hc')].
      * rewrite Hi. split; [lia|]. exists c. rewrite Z.sub_diag.
        split; [reflexivity|]. split; [exact Harea|].
        unfold straddles_centre. rewrite Hbox. split; assumption.
      * split; [lia|]. exists c'. split; [|exact Hc'].
        replace (Z.to_nat (snd (pick_stopline w rest (i + 1) (contourArea c) i)
                           - i))
          with (S (Z.to_nat
                     (snd (pick_stopline w rest (i + 1) (contourArea c) i)
                      - (i + 1)))) by lia.
        exact Hn.
    + destruct (IH (i + 1) a idx) as [Hi|(Hi & c' & Hn & Hc')].
      * left. exact Hi.
      * right. split; [lia|]. exists c'. split; [|exact Hc'].
        replace (Z.to_nat (snd (pick_stopline w rest (i + 1) a idx) - i))
          with (S (Z.to_nat (snd (pick_stopline w rest (i + 1) a idx)
                             - (i + 1)))) by lia.
        exact Hn.
Qed.

Lemma stopline_processing_trigger img s :
  trace (stopline_processing img s) = trigger_trace ->
  exists c,
    In c (red_contours img)
    /\ (3000 < contourArea c)%Q
    /\ straddles_centre (shape1 img) c
    /\ (390 < centre_row c)%Q.
Proof.
  unfold stopline_processing.
  pose proof (pick_stopline_candidate (shape1 img) (red_contours img)
                0 0%Q (-1)) as Hpick.
  destruct (pick_stopline (shape1 img) (red_contours img) 0 0%Q (-1))
    as [a idx]. cbn [snd] in Hpick.
  destruct (idx =? -1) eqn:E; cbn [negb].
  - run_method. cbn. intros H. discriminate H.
  - apply Z.eqb_neq in E.
    destruct Hpick as [Hi|(Hi & c & Hn & Harea & Hstr)]; [contradiction|].
    rewrite Z.sub_0_r in Hn.
    unfold contour_at. rewrite Hn. run_method.
    destruct (boundingRect c) as [[[xmin ymin] wd] ht] eqn:Hbox.
    destruct (Qgtb (inject_Z ymin + inject_Z ht * 0.5) 390) eqn:Hy.
    + intros _. exists c. split; [exact (nth_error_In _ _ Hn)|].
      split; [exact Harea|]. split; [exact Hstr|].
      unfold centre_row. rewrite Hbox. apply Qgtb_lt. exact Hy.
    + cbn. intros H. discriminate H.
Qed.

Lemma callback_trace_cases img s :
  trace (callback img s) = timer_tick (stop_timer_reset s)
  \/ (stop_timer_reset s = 0
      /\ get_lane_following_flag (bot_state s) = true
      /\ is_expecting_red_stopline (bot_state s) = true
      /\ trace (stopline_processing img
                  (with_stop_timer_reset
                     (Z.max 0 (stop_timer_reset s - 1)) s))
         = trigger_trace).
Proof.
  destruct (get_lane_following_flag (bot_state s)) eqn:Hflag.
  2:{ left. rewrite (callback_disabled img s Hflag). reflexivity. }
  set (s1 := with_stop_timer_reset (Z.max 0 (stop_timer_reset s - 1)) s).
  unfold callback. run_method. cbn. rewrite Hflag. cbn [negb].
  change (bot_state (with_stop_timer_reset _ s)) with (bot_state s).
  destruct ((stop_timer_reset s =? 0)
            && is_expecting_red_stopline (bot_state s)) eqn:Hgate; fold s1.
  - apply andb_true_iff in Hgate. destruct Hgate as [Hz Hexp].
    apply Z.eqb_eq in Hz.
    destruct (stopline_processing_cases img s1) as [Hsp|Hsp]; rewrite Hsp.
    + destruct (search_for_lane_cases img s1) as [x Hx]. rewrite Hx.
      left. reflexivity.
    + right. repeat split; assumption || reflexivity.
  - run_method. destruct (search_for_lane_cases img s1) as [x Hx].
    rewrite Hx. left. reflexivity.
Qed.

(** X5.  A stop-line trigger has a cause.  When [callback] produces one,
    the cooldown counter was 0, lane following was enabled, the state
    machine was expecting a stop line, and the frame contains a red region
    of area above 3000 whose bounding box straddles the vertical centre
    line of the image and whose centre lies below row 390. *)
Theorem trigger_has_cause img s :
  triggers (trace (callback img s)) = 1%nat ->
  stop_timer_reset s = 0
  /\ get_lane_following_flag (bot_state s) = true
  /\ is_expecting_red_stopline (bot_state s) = true
  /\ exists c,
       In c (red_contours img)
       /\ (3000 < contourArea c)%Q
       /\ straddles_centre (shape1 img) c
       /\ (390 < centre_row c)%Q.
Proof.
  intros Hfire.
  destruct (callback_trace_cases img s) as [E|(Hz & Hflag & Hexp & Hsp)].
  - rewrite E in Hfire. discriminate Hfire.
  - repeat split; try assumption.
    exact (stopline_processing_trigger img _ Hsp).
Qed.

(** ** Runs of frames *)

(** X6.  While lane following is disabled, frames still run the cooldown
    down, by one per frame and not below 0, but nothing else happens: no
    trigger, no publication, [prep_turn] and the state machine untouched,
    and the lateral error is [None] as soon as one frame has arrived. *)
Theorem disabled_frames_only_count_down (imgs : list Frame) : forall s,
  get_lane_following_flag (bot_state s) = false ->
  0 <= stop_timer_reset s ->
  triggers (snd (run (map Perceive imgs) s)) = 0%nat
  /\ publications (snd (run (map Perceive imgs) s)) = []
  /\ stop_timer_reset (fst (run (map Perceive imgs) s))
     = Z.max 0 (stop_timer_reset s - Z.of_nat (List.length imgs))
  /\ prep_turn (fst (run (map Perceive imgs) s)) = prep_turn s
  /\ bot_state (fst (run (map Perceive imgs) s)) = bot_state s
  /\ proportional (fst (run (map Perceive imgs) s))
     = match imgs with [] => proportional s | _ => None end.
Proof.
  induction imgs as [|img rest IH]; intros s Hflag Hpos.
  - cbn. repeat split; try reflexivity. lia.
  - cbn [map run fst snd]. rewrite (callback_disabled img s Hflag).
    unfold node_after, trace. cbn [fst snd].
    set (s1 := with_proportional None
                 (with_stop_timer_reset
                    (Z.max 0 (stop_timer_reset s - 1)) s)).
    assert (Hpos1 : 0 <= stop_timer_reset s1) by (cbn -[Z.max Z.sub]; lia).
    destruct (IH s1 Hflag Hpos1) as (Ht & Hp & Hs & Hturn & Hbs & Hprop).
    rewrite triggers_app, Ht.
    unfold publications in *. rewrite flat_map_app, Hp.
    rewrite Hs, Hturn, Hbs, Hprop.
    repeat split; try reflexivity.
    + cbn -[Z.max Z.sub Z.of_nat]. cbn [List.length]. lia.
    + destruct rest; reflexivity.
Qed.

(** X7.  During the cooldown the counter is the number of frames still to
    wait: as long as no more frames arrive than the counter holds, each
    frame lowers it by exactly one, none produces a trigger, and
    [prep_turn] is as before. *)
Theorem cooldown_counts_frames (imgs : list Frame) : forall s,
  Z.of_nat (List.length imgs) <= stop_timer_reset s ->
  stop_timer_reset (fst (run (map Perceive imgs) s))
    = stop_timer_reset s - Z.of_nat (List.length imgs)
  /\ triggers (snd (run (map Perceive imgs) s)) = 0%nat
  /\ prep_turn (fst (run (map Perceive imgs) s)) = prep_turn s.
Proof.
  induction imgs as [|img rest IH]; intros s Hwin.
  - cbn. repeat split; try reflexivity. lia.
  - cbn [List.length] in Hwin. cbn [map run fst snd].
    destruct (callback_cases img s) as [x [E|(Hz & _)]]; [|lia].
    rewrite E. unfold node_after, trace. cbn [fst snd].
    set (s1 := with_proportional x
                 (with_stop_timer_reset
                    (Z.max 0 (stop_timer_reset s - 1)) s)).
    assert (Hs1 : stop_timer_reset s1 = stop_timer_reset s - 1).
    { cbn -[Z.max Z.sub]. lia. }
    destruct (IH s1) as (Hs & Ht & Hturn); [lia|].
    rewrite triggers_app, Ht, Hs, Hturn, Hs1.
    repeat split; try reflexivity. cbn [List.length]. lia.
Qed.

(** ** Maneuvers and triggers *)

Lemma maneuvers_app tr1 tr2 :
  maneuvers (tr1 ++ tr2) = (maneuvers tr1 + maneuvers tr2)%nat.
Proof. unfold maneuvers. rewrite filter_app, length_app. reflexivity. Qed.

Lemma maneuvers_maneuver_trace sp turn_idx :
  maneuvers (maneuver_trace sp turn_idx) = 1%nat.
Proof.
  unfold maneuver_trace.
  destruct (turn_commands_cases sp turn_idx) as [E|(l & r & t & E)];
    rewrite E; reflexivity.
Qed.

Lemma maneuvers_bounded acts : forall s,
  (maneuvers (snd (run acts s))
   <= triggers (snd (run acts s)) + (if prep_turn s then 1 else 0))%nat.
Proof.
  induction acts as [|a rest IH]; intros s; cbn [run].
  - cbn. lia.
  - destruct a as [img|now1 now2|data].
    + cbn [snd]. rewrite maneuvers_app, triggers_app.
      destruct (callback_cases img s) as [x [E|(_ & _ & _ & E)]]; rewrite E;
        unfold trace, node_after; cbn [fst snd];
        match goal with |- context [run rest ?s'] => specialize (IH s') end;
        cbn in IH |- *; destruct (prep_turn s); lia.
    + destruct (drive_spec s now1 now2) as [Ht Hp|e Ht Hp Hd|e Ht Hp Hd
                                           |t sid bs' Ht Hd Ha|Ht Hf];
        unfold outcome, trace, node_after; cbn [fst snd];
        rewrite ?maneuvers_app, ?triggers_app, ?maneuvers_maneuver_trace,
          ?triggers_maneuver, Ht;
        try match goal with
            | |- context [run rest ?s'] => specialize (IH s')
            end;
        cbn in IH |- *; try rewrite Ht in IH; lia.
    + destruct (general_callback_cases data s) as [E|[E|E]]; rewrite E;
        unfold trace, node_after; cbn [fst snd existsb is_shutdown_signal orb];
        rewrite ?maneuvers_app, ?triggers_app;
        try match goal with
            | |- context [run rest ?s'] => specialize (IH s')
            end;
        cbn in IH |- *; destruct (prep_turn s); lia.
Qed.

(** X8.  The control loop never starts a maneuver without a trigger: in
    every run of a freshly constructed node, the number of maneuvers begun
    is at most the number of stop-line triggers produced. *)
Theorem no_maneuver_without_trigger (now : Q) (bs : BotState)
    (acts : list activity) :
  (maneuvers (snd (run acts (init now bs)))
   <= triggers (snd (run acts (init now bs))))%nat.
Proof.
  pose proof (maneuvers_bounded acts (init now bs)) as H.
  cbn [init prep_turn] in H. lia.
Qed.

(** X9.  A turn identifier other than 0, 1 and 2 is not an error: the
    maneuver then consists of the forward segment [(0.6, 0.6, 6)] alone,
    [drive] returns normally, the state machine has advanced and
    [prep_turn] is cleared. *)
Theorem unknown_turn_drives_forward_only s now1 now2 turn_idx sid bs' :
  prep_turn s = true ->
  decide_turn_at_red_stopline (bot_state s) = Some turn_idx ->
  advance_state (bot_state s) = Some (sid, bs') ->
  turn_idx <> 0 -> turn_idx <> 1 -> turn_idx <> 2 ->
  outcome (drive now1 now2 s) = inr tt
  /\ drive_commands (trace (drive now1 now2 s)) = [(0.6%Q, 0.6%Q, 6)]
  /\ bot_state (node_after (drive now1 now2 s)) = bs'
  /\ prep_turn (node_after (drive now1 now2 s)) = false.
Proof.
  intros Hturn Hdec Hadv H0 H1 H2.
  rewrite (drive_maneuver s now1 now2 turn_idx sid bs' Hturn Hdec Hadv).
  unfold maneuver_trace, turn_commands.
  apply Z.eqb_neq in H0, H1, H2. rewrite H0, H1, H2.
  repeat split; reflexivity.
Qed.

(** X10.  When the state machine raises on [decide_turn_at_red_stopline]
    or on [advance_state], [drive] has already stopped the wheels and reset
    the position, but gives no timed command and does not clear
    [prep_turn]; the exception leaves [drive], which ends the control loop:
    nothing that follows in the run happens. *)
Theorem state_machine_failure_ends_loop s now1 now2 rest :
  prep_turn s = true ->
  decide_turn_at_red_stopline (bot_state s) = None
  \/ advance_state (bot_state s) = None ->
  outcome (drive now1 now2 s) = inl StateMachineError
  /\ controller_calls (trace (drive now1 now2 s))
     = [CtlStop 20; CtlResetPosition]
  /\ node_after (drive now1 now2 s) = s
  /\ run (Control now1 now2 :: rest) s
     = (s, [LockAcquire; LockRelease; CtlStop 20; CtlResetPosition]).
Proof.
  intros Hturn Hfail. cbn [run].
  rewrite (drive_maneuver_fails s now1 now2 Hturn Hfail).
  repeat split; reflexivity.
Qed.

(** ** The PID branch *)

(** X11.  A tick in continuous mode publishes exactly one command when it
    returns and none when it raises; it calls nothing on the controller,
    writes neither [prep_turn] nor [stop_timer_reset], and leaves the
    lateral error and the state machine as they were. *)
Theorem continuous_tick_frame s now1 now2 :
  prep_turn s = false ->
  List.length (publications (trace (drive now1 now2 s)))
    = match outcome (drive now1 now2 s) with inl _ => 0 | inr _ => 1 end%nat
  /\ controller_calls (trace (drive now1 now2 s)) = []
  /\ prep_turn_writes (trace (drive now1 now2 s)) = []
  /\ stop_timer_writes (trace (drive now1 now2 s)) = []
  /\ prep_turn (node_after (drive now1 now2 s)) = false
  /\ stop_timer_reset (node_after (drive now1 now2 s)) = stop_timer_reset s
  /\ proportional (node_after (drive now1 now2 s)) = proportional s
  /\ bot_state (node_after (drive now1 now2 s)) = bot_state s.
Proof.
  intros Hturn.
  destruct (drive_spec s now1 now2) as [Ht Hp|e Ht Hp Hd|e Ht Hp Hd
                                       |t sid bs' Ht Hd Ha|Ht Hf];
    try congruence;
    unfold outcome, trace, node_after; cbn [fst snd];
    repeat split; try reflexivity; assumption.
Qed.

(** X12.  A stalled clock stops the control loop.  After a successful PID
    tick, a tick whose first clock reading equals the time stored by the
    previous one divides by zero, while the lateral error is unchanged in
    between: it raises [ZeroDivisionError] without publishing, and the
    loop ends. *)
Theorem stalled_clock_ends_loop s e now1 now2 now3 rest :
  prep_turn s = false ->
  proportional s = Some e ->
  ~ (now1 - last_time s == 0)%Q ->
  outcome (drive now2 now3 (node_after (drive now1 now2 s)))
    = inl ZeroDivisionError
  /\ publications
       (snd (run (Control now1 now2 :: Control now2 now3 :: rest) s))
     = [mkTwist (velocity s) (pid_omega s e now1)].
Proof.
  intros Hturn Hprop Hdt.
  assert (Hz : (now2 - now2 == 0)%Q) by ring.
  cbn [run]. rewrite (drive_pid s e now1 now2 Hturn Hprop Hdt).
  unfold outcome, node_after, trace. cbn [fst snd].
  set (s1 := with_twist (mkTwist (velocity s) (pid_omega s e now1))
               (with_last_time now2 (with_last_error e s))).
  rewrite (drive_pid_zero_interval s1 e now2 now3 Hturn Hprop Hz).
  split; reflexivity.
Qed.

Lemma neg_error_times_gain (e : Z) (kp : Q) :
  (0 < kp)%Q ->
  (0 < e -> (- inject_Z e * kp < 0)%Q)
  /\ (e < 0 -> (0 < - inject_Z e * kp)%Q).
Proof.
  destruct kp as [n d]. unfold Qlt. cbn. intros Hk. split; intros He; nia.
Qed.

(** X13.  When the lateral error equals the one of the previous tick, the
    derivative term vanishes and the angular velocity is the proportional
    term [-e * P] alone; with a positive gain [P] it steers against the
    error. *)
Theorem steady_error_is_proportional s e now1 now2 :
  prep_turn s = false ->
  proportional s = Some e ->
  last_error s = e ->
  ~ (now1 - last_time s == 0)%Q ->
  (0 < P s)%Q ->
  (omega (twist (node_after (drive now1 now2 s))) == - inject_Z e * P s)%Q
  /\ (0 < e -> (omega (twist (node_after (drive now1 now2 s))) < 0)%Q)
  /\ (e < 0 -> (0 < omega (twist (node_after (drive now1 now2 s))))%Q).
Proof.
  intros Hturn Hprop Hle Hdt Hgain.
  rewrite (drive_pid s e now1 now2 Hturn Hprop Hdt).
  unfold node_after. cbn [fst snd twist with_twist omega].
  assert (Hom : (pid_omega s e now1 == - inject_Z e * P s)%Q).
  { unfold pid_omega. rewrite Hle, Z.sub_diag.
    change (inject_Z 0) with 0%Q. unfold Qdiv.
    rewrite !Qmult_0_l, Qplus_0_r. reflexivity. }
  destruct (neg_error_times_gain e (P s) Hgain) as [Hpos Hneg].
  split; [exact Hom|]. split; intros He; rewrite Hom; auto.
Qed.

(** ** [hook] *)

(** X14.  [hook] publishes nine commands, all with both velocities zero,
    whatever the node holds.  The stop does not stick: if the control loop
    ticks afterwards with a lateral error, it publishes the cruise velocity
    again. *)
Theorem hook_stop_is_not_sticky s e now1 now2 :
  prep_turn s = false ->
  proportional s = Some e ->
  ~ (now1 - last_time s == 0)%Q ->
  publications (trace (hook s)) = repeat (mkTwist 0%Q 0%Q) 9
  /\ twist (node_after (hook s)) = mkTwist 0%Q 0%Q
  /\ publications (trace (drive now1 now2 (node_after (hook s))))
     = [mkTwist (velocity s) (pid_omega s e now1)].
Proof.
  intros Hturn Hprop Hdt. rewrite hook_zero_burst.
  unfold node_after, trace. cbn [fst snd].
  rewrite (drive_pid (with_twist (mkTwist 0%Q 0%Q) s) e now1 now2
             Hturn Hprop Hdt).
  repeat split; reflexivity.
Qed.

(** ** [general_callback] and shutdown *)

(** X15.  [general_callback] never raises and publishes nothing.  It calls
    [rospy.signal_shutdown] exactly when the message is ["shutdown"]; the
    only field it can change is [continue_run], and only when the message
    is ["stop"]. *)
Theorem general_callback_effects data s :
  outcome (general_callback data s) = inr tt
  /\ publications (trace (general_callback data s)) = []
  /\ (In SignalShutdown (trace (general_callback data s))
      <-> data = "shutdown"%string)
  /\ with_continue_run (continue_run s) (node_after (general_callback data s))
     = s
  /\ (continue_run (node_after (general_callback data s)) <> continue_run s
      -> data = "stop"%string).
Proof.
  assert (Hsame : with_continue_run (continue_run s) s = s)
    by (destruct s; reflexivity).
  unfold general_callback.
  destruct (String.eqb_spec data "shutdown") as [Hsd|Hsd].
  - split; [reflexivity|]. split; [reflexivity|]. split.
    { split; intros _; [exact Hsd | left; reflexivity]. }
    split; [exact Hsame|]. intros H. exfalso. apply H. reflexivity.
  - destruct (String.eqb_spec data "stop") as [Hst|Hst].
    + split; [reflexivity|]. split; [reflexivity|]. split.
      { split; [intros H; destruct H | intros H; contradiction]. }
      split; [destruct s; reflexivity|]. intros _. exact Hst.
    + split; [reflexivity|]. split; [reflexivity|]. split.
      { split; [intros H; destruct H | intros H; contradiction]. }
      split; [exact Hsame|]. intros H. exfalso. apply H. reflexivity.
Qed.






(** X17.  No run changes the configuration set by [__init__]: the gains
    [P] and [D], the cruise velocity, the turn speed and the offset are the
    same at the end of every run as at its start. *)
Theorem run_keeps_configuration acts : forall s,
  P (fst (run acts s)) = P s
  /\ D (fst (run acts s)) = D s
  /\ velocity (fst (run acts s)) = velocity s
  /\ speed (fst (run acts s)) = speed s
  /\ offset (fst (run acts s)) = offset s.
Proof.
  induction acts as [|a rest IH]; intros s; cbn [run].
  - repeat split.
  - destruct a as [img|now1 now2|data].
    + cbn [fst].
      destruct (IH (node_after (callback img s))) as (H1 & H2 & H3 & H4 & H5).
      rewrite H1, H2, H3, H4, H5.
      destruct (callback_cases img s) as [x [E|(_ & _ & _ & E)]]; rewrite E;
        repeat split; reflexivity.
    + destruct (IH (node_after (drive now1 now2 s)))
        as (H1 & H2 & H3 & H4 & H5).
      destruct (drive_spec s now1 now2) as [Ht Hp|e Ht Hp Hd|e Ht Hp Hd
                                           |t sid bs' Ht Hd Ha|Ht Hf];
        unfold outcome, node_after in *; cbn [fst snd] in *;
        rewrite ?H1, ?H2, ?H3, ?H4, ?H5; repeat split; reflexivity.
    + destruct (IH (node_after (general_callback data s)))
        as (H1 & H2 & H3 & H4 & H5).
      destruct (general_callback_cases data s) as [E|[E|E]];
        rewrite E in *;
        unfold trace, node_after in *;
        cbn [fst snd existsb is_shutdown_signal orb] in *;
        rewrite ?H1, ?H2, ?H3, ?H4, ?H5; repeat split; reflexivity.
Qed.

(** ** Which red region decides *)

Lemma pick_stopline_cons w c rest i a idx :
  pick_stopline w (c :: rest) i a idx =
    if Qgtb (contourArea c) a && stopline_candidate w c
    then pick_stopline w rest (i + 1) (contourArea c) i
    else pick_stopline w rest (i + 1) a idx.
Proof.
  cbn [pick_stopline]. unfold stopline_candidate.
  destruct (boundingRect c) as [[[xmin ymin] wd] ht].
  rewrite !andb_assoc. reflexivity.
Qed.

Lemma pick_stopline_skip w cs : forall i a idx,
  Forall (fun x => stopline_candidate w x = true -> contourArea x <= a)%Q cs ->
  pick_stopline w cs i a idx = (a, idx).
Proof.
  induction cs as [|c rest IH]; intros i a idx Hall.
  - reflexivity.
  - inversion Hall as [|c' rest' Hc Hrest]; subst.
    rewrite pick_stopline_cons.
    destruct (stopline_candidate w c).
    + rewrite (proj2 (Qgtb_le _ _) (Hc eq_refl)). cbn [andb].
      apply IH. exact Hrest.
    + rewrite andb_false_r. apply IH. exact Hrest.
Qed.

Lemma pick_stopline_first_largest w before c after : forall i a idx,
  (a < contourArea c)%Q ->
  stopline_candidate w c = true ->
  Forall (fun x => stopline_candidate w x = true
                   -> contourArea x < contourArea c)%Q before ->
  Forall (fun x => stopline_candidate w x = true
                   -> contourArea x <= contourArea c)%Q after ->
  pick_stopline w (before ++ c :: after) i a idx
    = (contourArea c, i + Z.of_nat (List.length before)).
Proof.
  induction before as [|b rest IH]; intros i a idx Ha Hc Hbefore Hafter.
  - cbn [app List.length]. rewrite pick_stopline_cons.
    rewrite (proj2 (Qgtb_lt _ _) Ha), Hc. cbn [andb].
    rewrite (pick_stopline_skip w after (i + 1) (contourArea c) i Hafter).
    f_equal. cbn. lia.
  - inversion Hbefore as [|b' rest' Hb Hrest]; subst.
    cbn [app]. rewrite pick_stopline_cons.
    replace (i + Z.of_nat (List.length (b :: rest)))
      with ((i + 1) + Z.of_nat (List.length rest))
      by (cbn [List.length]; lia).
    destruct (Qgtb (contourArea b) a && stopline_candidate w b) eqn:E.
    + apply andb_true_iff in E. destruct E as [_ Hcand].
      apply IH; auto.
    + apply IH; assumption.
Qed.

Lemma stopline_candidate_area w c :
  stopline_candidate w c = true -> (0 < contourArea c)%Q.
Proof.
  unfold stopline_candidate.
  destruct (boundingRect c) as [[[xmin ymin] wd] ht]. intros H.
  apply andb_true_iff in H. destruct H as [H _].
  apply andb_true_iff in H. destruct H as [H _].
  apply Qgtb_lt in H. apply Qlt_trans with (y := 3000%Q); [reflexivity|].
  exact H.
Qed.

Lemma stopline_processing_decides img s before c after :
  red_contours img = before ++ c :: after ->
  stopline_candidate (shape1 img) c = true ->
  Forall (fun x => stopline_candidate (shape1 img) x = true
                   -> contourArea x < contourArea c)%Q before ->
  Forall (fun x => stopline_candidate (shape1 img) x = true
                   -> contourArea x <= contourArea c)%Q after ->
  trace (stopline_processing img s)
    = if Qgtb (centre_row c) 390 then trigger_trace else [].
Proof.
  intros Hcs Hc Hbefore Hafter. unfold stopline_processing. rewrite Hcs.
  rewrite (pick_stopline_first_largest (shape1 img) before c after 0 0%Q (-1)
             (stopline_candidate_area _ _ Hc) Hc Hbefore Hafter).
  assert (Hne : (0 + Z.of_nat (List.length before) =? -1) = false)
    by (apply Z.eqb_neq; lia).
  rewrite Hne. cbn [negb]. run_method. rewrite contour_at_middle.
  unfold centre_row.
  destruct (boundingRect c) as [[[xmin ymin] wd] ht].
  destruct (Qgtb (inject_Z ymin + inject_Z ht * 0.5) 390); reflexivity.
Qed.

Lemma callback_trace_exact img s :
  trace (callback img s)
    = timer_tick (stop_timer_reset s)
      ++ (if get_lane_following_flag (bot_state s)
             && ((stop_timer_reset s =? 0)
                 && is_expecting_red_stopline (bot_state s))
          then trace (stopline_processing img
                        (with_stop_timer_reset
                           (Z.max 0 (stop_timer_reset s - 1)) s))
          else []).
Proof.
  destruct (get_lane_following_flag (bot_state s)) eqn:Hflag.
  2:{ rewrite (callback_disabled img s Hflag). cbn [andb].
      rewrite app_nil_r. reflexivity. }
  set (s1 := with_stop_timer_reset (Z.max 0 (stop_timer_reset s - 1)) s).
  cbn [andb]. unfold callback. run_method. cbn. rewrite Hflag. cbn [negb].
  change (bot_state (with_stop_timer_reset _ s)) with (bot_state s).
  destruct ((stop_timer_reset s =? 0)
            && is_expecting_red_stopline (bot_state s)); fold s1.
  - destruct (stopline_processing_cases img s1) as [Hsp|Hsp]; rewrite Hsp.
    + destruct (search_for_lane_cases img s1) as [x Hx]. rewrite Hx.
      reflexivity.
    + set (s2 := with_prep_turn true
                   (with_stop_timer_reset STOP_TIMER_RESET_TIME s1)).
      destruct (search_for_lane_cases img s2) as [x Hx]. rewrite Hx.
      reflexivity.
  - run_method. destruct (search_for_lane_cases img s1) as [x Hx].
    rewrite Hx. reflexivity.
Qed.

(** X18.  Only one red region decides.  Among the regions that are
    stop-line candidates (area above 3000, bounding box across the centre
    line), the first of largest area is the one looked at; regions that are
    not candidates do not matter.  [callback] produces a trigger exactly
    when the counter is 0, lane following is enabled, a stop line is
    expected and the centre of that region lies below row 390. *)
Theorem trigger_decided_by_largest_candidate img s before c after :
  red_contours img = before ++ c :: after ->
  stopline_candidate (shape1 img) c = true ->
  Forall (fun x => stopline_candidate (shape1 img) x = true
                   -> contourArea x < contourArea c)%Q before ->
  Forall (fun x => stopline_candidate (shape1 img) x = true
                   -> contourArea x <= contourArea c)%Q after ->
  (triggers (trace (callback img s)) = 1%nat
   <-> stop_timer_reset s = 0
       /\ get_lane_following_flag (bot_state s) = true
       /\ is_expecting_red_stopline (bot_state s) = true
       /\ (390 < centre_row c)%Q)
  /\ (triggers (trace (callback img s)) <= 1)%nat.
Proof.
  intros Hcs Hc Hbefore Hafter.
  rewrite callback_trace_exact, triggers_app.
  rewrite (stopline_processing_decides img _ before c after
             Hcs Hc Hbefore Hafter).
  change (triggers (timer_tick (stop_timer_reset s))) with 0%nat.
  destruct (get_lane_following_flag (bot_state s)); cbn [andb].
  2:{ split; [|cbn; lia]. split; [intros H; discriminate H|].
      intros (_ & H & _). discriminate H. }
  destruct (Z.eqb_spec (stop_timer_reset s) 0) as [Hz|Hz]; cbn [andb].
  2:{ split; [|cbn; lia]. split; [intros H; discriminate H|].
      intros (H & _). contradiction. }
  destruct (is_expecting_red_stopline (bot_state s)).
  2:{ split; [|cbn; lia]. split; [intros H; discriminate H|].
      intros (_ & _ & H & _). discriminate H. }
  destruct (Qgtb (centre_row c) 390) eqn:Hy.
  - split; [|cbn; lia]. split; [|reflexivity].
    intros _. apply Qgtb_lt in Hy. repeat split; assumption.
  - split; [|cbn; lia]. split; [intros H; discriminate H|].
    intros (_ & _ & _ & H). apply Qgtb_lt in H. congruence.
Qed.



End MoreProperties.

(** * Properties beyond the claims: the AprilTag node *)

Lemma apriltag_processed_app (tr1 tr2 : list AprilTag.event) :
  AprilTag.processed (tr1 ++ tr2)
    = AprilTag.processed tr1 + AprilTag.processed tr2.
Proof.
  unfold AprilTag.processed. rewrite filter_app, length_app. lia.
Qed.

Lemma apriltag_process_tags_no_detections (tags : list AprilTag.Tag) :
  AprilTag.processed (AprilTag.process_tags tags) = 0.
Proof.
  induction tags as [|det rest IH]; [reflexivity|].
  cbn [AprilTag.process_tags].
  destruct (Qgtb (AprilTag.pose_t_norm det) AprilTag.IGNORE_DISTANCE_MAX
            || Qgtb AprilTag.IGNORE_DISTANCE_MIN (AprilTag.pose_t_norm det));
    exact IH.
Qed.

Lemma eighth_step (t : Z) :
  (t + 1) / 8 - t / 8 = if (t + 1) mod 8 =? 0 then 1 else 0.
Proof.
  pose proof (Z.div_mod t 8 ltac:(lia)) as H1.
  pose proof (Z.div_mod (t + 1) 8 ltac:(lia)) as H2.
  pose proof (Z.mod_pos_bound t 8 ltac:(lia)) as B1.
  pose proof (Z.mod_pos_bound (t + 1) 8 ltac:(lia)) as B2.
  destruct ((t + 1) mod 8 =? 0) eqn:E;
    [apply Z.eqb_eq in E | apply Z.eqb_neq in E]; lia.
Qed.

Lemma apriltag_callback_step msg s :
  AprilTag.processed (snd (AprilTag.callback msg s))
    = (AprilTag.timer s + 1) / 8 - AprilTag.timer s / 8
  /\ AprilTag.timer (fst (AprilTag.callback msg s)) = AprilTag.timer s + 1.
Proof.
  unfold AprilTag.callback. cbn [AprilTag.timer]. rewrite eighth_step.
  destruct ((AprilTag.timer s + 1) mod 8 =? 0); cbn [fst snd].
  - split; [|reflexivity].
    change (AprilTag.processed
              (AprilTag.PubDetections (AprilTag.stamp msg)
                 (AprilTag.frame_id msg)
                 (map AprilTag.tag_id (AprilTag.detected_tags msg))
               :: AprilTag.process_tags (AprilTag.detected_tags msg)))
      with (AprilTag.processed
              ([AprilTag.PubDetections (AprilTag.stamp msg)
                  (AprilTag.frame_id msg)
                  (map AprilTag.tag_id (AprilTag.detected_tags msg))]
               ++ AprilTag.process_tags (AprilTag.detected_tags msg))).
    rewrite apriltag_processed_app, apriltag_process_tags_no_detections.
    reflexivity.
  - split; reflexivity.
Qed.

Lemma apriltag_spin_processed msgs : forall s,
  AprilTag.processed (snd (AprilTag.spin msgs s))
    = (AprilTag.timer s + Z.of_nat (List.length msgs)) / 8
      - AprilTag.timer s / 8
  /\ AprilTag.timer (fst (AprilTag.spin msgs s))
     = AprilTag.timer s + Z.of_nat (List.length msgs).
Proof.
  induction msgs as [|msg rest IH]; intros s.
  - cbn [AprilTag.spin fst snd List.length Z.of_nat].
    rewrite Z.add_0_r. split; [cbn; lia | reflexivity].
  - cbn [AprilTag.spin fst snd].
    destruct (apriltag_callback_step msg s) as [Hp Ht].
    destruct (IH (fst (AprilTag.callback msg s))) as [Hp' Ht'].
    rewrite apriltag_processed_app, Hp, Hp', Ht', Ht.
    cbn [List.length]. split.
    + replace (AprilTag.timer s + 1 + Z.of_nat (List.length rest))
        with (AprilTag.timer s + Z.of_nat (S (List.length rest))) by lia.
      lia.
    + lia.
Qed.

(** X20.  The AprilTag node processes the frames at which its counter
    reaches a multiple of 8, and no others: after any sequence of frames
    the counter has advanced by their number, and the number of frames
    processed is [(timer + n) / 8 - timer / 8].  A fresh node therefore
    processes [n / 8] of its first [n] frames. *)
Theorem apriltag_processes_every_eighth_frame
    (msgs : list AprilTag.CompressedImage) (s : AprilTag.MLNode) :
  AprilTag.timer (fst (AprilTag.spin msgs s))
    = AprilTag.timer s + Z.of_nat (List.length msgs)
  /\ AprilTag.processed (snd (AprilTag.spin msgs s))
     = (AprilTag.timer s + Z.of_nat (List.length msgs)) / 8
       - AprilTag.timer s / 8
  /\ AprilTag.processed (snd (AprilTag.spin msgs AprilTag.init))
     = Z.of_nat (List.length msgs) / 8.
Proof.
  destruct (apriltag_spin_processed msgs s) as [Hp Ht].
  destruct (apriltag_spin_processed msgs AprilTag.init) as [Hp0 _].
  split; [exact Ht|]. split; [exact Hp|].
  rewrite Hp0. cbn [AprilTag.init AprilTag.timer].
  rewrite Z.add_0_l. cbn. lia.
Qed.

(** X21.  Of any eight consecutive frames the AprilTag node processes
    exactly one, whatever its counter was before. *)
Theorem apriltag_one_frame_in_eight
    (msgs : list AprilTag.CompressedImage) (s : AprilTag.MLNode) :
  List.length msgs = 8%nat ->
  AprilTag.processed (snd (AprilTag.spin msgs s)) = 1.
Proof.
  intros Hlen. destruct (apriltag_spin_processed msgs s) as [Hp _].
  rewrite Hp, Hlen.
  pose proof (Z.div_mod (AprilTag.timer s) 8 ltac:(lia)) as H1.
  pose proof (Z.div_mod (AprilTag.timer s + Z.of_nat 8) 8 ltac:(lia)) as H2.
  pose proof (Z.mod_pos_bound (AprilTag.timer s) 8 ltac:(lia)) as B1.
  pose proof (Z.mod_pos_bound (AprilTag.timer s + Z.of_nat 8) 8 ltac:(lia))
    as B2.
  lia.
Qed.

Lemma apriltag_in_range_test (det : AprilTag.Tag) :
  Qgtb (AprilTag.pose_t_norm det) AprilTag.IGNORE_DISTANCE_MAX
  || Qgtb AprilTag.IGNORE_DISTANCE_MIN (AprilTag.pose_t_norm det)
  = negb (AprilTag.in_range det).
Proof.
  unfold AprilTag.in_range, Qgtb.
  destruct (Qle_bool (AprilTag.pose_t_norm det) AprilTag.IGNORE_DISTANCE_MAX),
    (Qle_bool AprilTag.IGNORE_DISTANCE_MIN (AprilTag.pose_t_norm det));
    reflexivity.
Qed.

(** X22.  [process_tags] publishes a distance message for every detected
    tag, in detection order, and the identifier of exactly those tags
    whose distance lies between [IGNORE_DISTANCE_MIN] and
    [IGNORE_DISTANCE_MAX], both bounds included, in the same order. *)
Theorem apriltag_process_tags_publications (tags : list AprilTag.Tag) :
  AprilTag.tag_distances (AprilTag.process_tags tags)
    = map (fun det => (AprilTag.tag_id det, AprilTag.pose_t_norm det)) tags
  /\ AprilTag.tag_ids (AprilTag.process_tags tags)
     = map AprilTag.tag_id (filter AprilTag.in_range tags).
Proof.
  induction tags as [|det rest [IHd IHi]]; [split; reflexivity|].
  cbn [AprilTag.process_tags map filter]. rewrite apriltag_in_range_test.
  destruct (AprilTag.in_range det); cbn [negb];
    cbn [AprilTag.tag_distances AprilTag.tag_ids flat_map app map];
    fold (AprilTag.tag_distances (AprilTag.process_tags rest));
    fold (AprilTag.tag_ids (AprilTag.process_tags rest));
    rewrite IHd, IHi; split; reflexivity.
Qed.

Lemma apriltag_process_tags_id (tags : list AprilTag.Tag) (id : Z) :
  In (AprilTag.PubTagId id) (AprilTag.process_tags tags) ->
  exists det,
    In det tags /\ AprilTag.tag_id det = id /\ AprilTag.in_range det = true.
Proof.
  induction tags as [|det rest IH]; [intros []|].
  cbn [AprilTag.process_tags]. rewrite apriltag_in_range_test.
  destruct (AprilTag.in_range det) eqn:E; cbn [negb].
  - intros [H|[H|H]].
    + discriminate H.
    + injection H as H. exists det. split; [left; reflexivity|].
      split; assumption.
    + destruct (IH H) as (d & Hin & Hid & Hr).
      exists d. split; [right; exact Hin|]. split; assumption.
  - intros [H|H]; [discriminate H|].
    destruct (IH H) as (d & Hin & Hid & Hr).
    exists d. split; [right; exact Hin|]. split; assumption.
Qed.

(** X23.  Every tag identifier the AprilTag node publishes belongs to a
    tag detected in one of the frames it received, at a distance of at
    least [IGNORE_DISTANCE_MIN] and at most [IGNORE_DISTANCE_MAX]. *)
Theorem apriltag_publishes_only_tags_in_range
    (msgs : list AprilTag.CompressedImage) : forall (s : AprilTag.MLNode) id,
  In (AprilTag.PubTagId id) (snd (AprilTag.spin msgs s)) ->
  exists msg det,
    In msg msgs
    /\ In det (AprilTag.detected_tags msg)
    /\ AprilTag.tag_id det = id
    /\ (AprilTag.IGNORE_DISTANCE_MIN <= AprilTag.pose_t_norm det)%Q
    /\ (AprilTag.pose_t_norm det <= AprilTag.IGNORE_DISTANCE_MAX)%Q.
Proof.
  induction msgs as [|msg rest IH]; intros s id; [intros []|].
  cbn [AprilTag.spin snd]. intros H. apply in_app_or in H.
  destruct H as [H|H].
  - unfold AprilTag.callback in H.
    destruct (AprilTag.timer
                (AprilTag.mkMLNode (AprilTag.seq s) (AprilTag.timer s + 1))
              mod 8 =? 0); cbn [snd] in H; [|destruct H].
    destruct H as [H|H]; [discriminate H|].
    destruct (apriltag_process_tags_id _ _ H) as (det & Hin & Hid & Hr).
    unfold AprilTag.in_range in Hr. apply andb_true_iff in Hr.
    destruct Hr as [Hlo Hhi]. apply Qle_bool_iff in Hlo, Hhi.
    exists msg, det. split; [left; reflexivity|]. repeat split; assumption.
  - destruct (IH _ _ H) as (m & det & Hm & Hrest).
    exists m, det. split; [right; exact Hm | exact Hrest].
Qed.

(** * The further properties on concrete inputs *)

(** The second region, the first of area 900, gives 350 - 320 + 220. *)
Lemma callback_error_of_largest_region_witness :
  get_lane_following_flag (bot_state node0) = true
  /\ outcome (callback three_region_frame node0) = inr tt
  /\ proportional (node_after (callback three_region_frame node0))
     = Some 250.
Proof.
  split; [reflexivity|].
  apply (callback_error_of_largest_region three_region_frame node0
           [region 100%Q 10%Q (0, 0, 10, 10)]
           (region 900%Q 350%Q (330, 40, 40, 40))
           [region 900%Q 500%Q (480, 40, 40, 40)]).
  - reflexivity.
  - reflexivity.
  - reflexivity.
  - constructor; [reflexivity | constructor].
  - constructor; [|constructor]. intros H. discriminate H.
  - intros H. discriminate H.
Defined.

(** The lateral error 10 of the previous frame survives the degenerate
    frame. *)
Lemma callback_zero_moment_keeps_error_witness :
  get_lane_following_flag (bot_state node_tracking) = true
  /\ proportional node_tracking = Some 10
  /\ outcome (callback degenerate_frame node_tracking) = inr tt
  /\ proportional (node_after (callback degenerate_frame node_tracking))
     = Some 10.
Proof.
  split; [reflexivity|]. split; [reflexivity|].
  apply (callback_zero_moment_keeps_error degenerate_frame node_tracking
           [region 100%Q 10%Q (0, 0, 10, 10)]
           (mkContour 900%Q (mkMoments 0%Q 0%Q 0%Q) (330, 40, 40, 40))
           []).
  - reflexivity.
  - reflexivity.
  - reflexivity.
  - constructor; [reflexivity | constructor].
  - constructor.
  - reflexivity.
Defined.

Lemma trigger_has_cause_witness :
  triggers (trace (callback stopline_frame node0)) = 1%nat
  /\ stop_timer_reset node0 = 0
  /\ exists c,
       In c (red_contours stopline_frame)
       /\ (3000 < contourArea c)%Q
       /\ straddles_centre (shape1 stopline_frame) c
       /\ (390 < centre_row c)%Q.
Proof.
  split; [reflexivity|].
  destruct (trigger_has_cause stopline_frame node0)
    as (Hz & _ & _ & Hc); [reflexivity|].
  split; [exact Hz | exact Hc].
Defined.

(** Three frames, one of them showing the stop line, while lane following
    is off and the counter stands at 2. *)
Lemma disabled_frames_only_count_down_witness :
  get_lane_following_flag
    (bot_state (with_stop_timer_reset 2 (init 0%Q bot_off))) = false
  /\ triggers
       (snd (run (map Perceive [lane_frame; stopline_frame; lane_frame])
               (with_stop_timer_reset 2 (init 0%Q bot_off)))) = 0%nat
  /\ stop_timer_reset
       (fst (run (map Perceive [lane_frame; stopline_frame; lane_frame])
               (with_stop_timer_reset 2 (init 0%Q bot_off)))) = 0
  /\ proportional
       (fst (run (map Perceive [lane_frame; stopline_frame; lane_frame])
               (with_stop_timer_reset 2 (init 0%Q bot_off)))) = None.
Proof.
  split; [reflexivity|].
  destruct (disabled_frames_only_count_down
              [lane_frame; stopline_frame; lane_frame]
              (with_stop_timer_reset 2 (init 0%Q bot_off)))
    as (Ht & _ & Hs & _ & _ & Hp).
  - reflexivity.
  - cbn. lia.
  - split; [exact Ht|]. split; [exact Hs | exact Hp].
Defined.

(** Two frames after a trigger the counter stands at 58. *)
Lemma cooldown_counts_frames_witness :
  stop_timer_reset (node_after (callback stopline_frame node0)) = 60
  /\ stop_timer_reset
       (fst (run (map Perceive [stopline_frame; stopline_frame])
               (node_after (callback stopline_frame node0))))
     = 60 - 2
  /\ triggers
       (snd (run (map Perceive [stopline_frame; stopline_frame])
               (node_after (callback stopline_frame node0)))) = 0%nat.
Proof.
  split; [reflexivity|].
  destruct (cooldown_counts_frames [stopline_frame; stopline_frame]
              (node_after (callback stopline_frame node0)))
    as (Hs & Ht & _).
  - vm_compute. discriminate.
  - split; [exact Hs | exact Ht].
Defined.

Lemma unknown_turn_drives_forward_only_witness :
  decide_turn_at_red_stopline
    (bot_state (with_prep_turn true (init 0%Q bot_odd))) = Some 7
  /\ outcome (drive 1 1 (with_prep_turn true (init 0%Q bot_odd))) = inr tt
  /\ drive_commands
       (trace (drive 1 1 (with_prep_turn true (init 0%Q bot_odd))))
     = [(0.6%Q, 0.6%Q, 6)].
Proof.
  split; [reflexivity|].
  destruct (unknown_turn_drives_forward_only
              (with_prep_turn true (init 0%Q bot_odd)) 1%Q 1%Q 7 1
              (mkSpecBotState [7] 1 true))
    as (Ho & Hc & _); try reflexivity; try lia.
  split; [exact Ho | exact Hc].
Defined.

Lemma state_machine_failure_ends_loop_witness :
  decide_turn_at_red_stopline
    (bot_state (with_prep_turn true (init 0%Q bot_done))) = None
  /\ outcome (drive 1 1 (with_prep_turn true (init 0%Q bot_done)))
     = inl StateMachineError
  /\ snd (run [Control 1 1; Perceive lane_frame; Control 2 2]
            (with_prep_turn true (init 0%Q bot_done)))
     = [LockAcquire; LockRelease; CtlStop 20; CtlResetPosition].
Proof.
  split; [reflexivity|].
  destruct (state_machine_failure_ends_loop
              (with_prep_turn true (init 0%Q bot_done)) 1%Q 1%Q
              [Perceive lane_frame; Control 2 2])
    as (Ho & _ & _ & Hr).
  - reflexivity.
  - left. reflexivity.
  - split; [exact Ho|]. rewrite Hr. reflexivity.
Defined.

Lemma continuous_tick_frame_witness :
  prep_turn node_tracking = false
  /\ List.length (publications (trace (drive 1 1 node_tracking))) = 1%nat
  /\ controller_calls (trace (drive 1 1 node_tracking)) = []
  /\ proportional (node_after (drive 1 1 node_tracking)) = Some 10.
Proof.
  split; [reflexivity|].
  destruct (continuous_tick_frame node_tracking 1%Q 1%Q)
    as (Hn & Hc & _ & _ & _ & _ & Hp & _); [reflexivity|].
  split; [exact Hn|]. split; [exact Hc | exact Hp].
Defined.

(** The clock reads 1, then 2 twice. *)
Lemma stalled_clock_ends_loop_witness :
  prep_turn node_tracking = false
  /\ proportional node_tracking = Some 10
  /\ outcome (drive 2 5 (node_after (drive 1 2 node_tracking)))
     = inl ZeroDivisionError
  /\ List.length
       (publications
          (snd (run [Control 1 2; Control 2 5; Control 6 7] node_tracking)))
     = 1%nat.
Proof.
  split; [reflexivity|]. split; [reflexivity|].
  destruct (stalled_clock_ends_loop node_tracking 10 1%Q 2%Q 5%Q
              [Control 6 7]) as (Ho & Hp).
  - reflexivity.
  - reflexivity.
  - intros H. discriminate H.
  - split; [exact Ho|]. rewrite Hp. reflexivity.
Defined.

(** The error 10 was already there on the previous tick. *)
Lemma steady_error_is_proportional_witness :
  last_error (with_last_error 10 node_tracking) = 10
  /\ (0 < P (with_last_error 10 node_tracking))%Q
  /\ (omega (twist (node_after
                      (drive 1 1 (with_last_error 10 node_tracking))))
      == - inject_Z 10 * 0.049)%Q
  /\ (omega (twist (node_after
                      (drive 1 1 (with_last_error 10 node_tracking))))
      < 0)%Q.
Proof.
  split; [reflexivity|]. split; [reflexivity|].
  destruct (steady_error_is_proportional
              (with_last_error 10 node_tracking) 10 1%Q 1%Q)
    as (Hom & Hneg & _).
  - reflexivity.
  - reflexivity.
  - reflexivity.
  - intros H. discriminate H.
  - reflexivity.
  - split; [exact Hom|]. apply Hneg. lia.
Defined.

Lemma hook_stop_is_not_sticky_witness :
  prep_turn node_tracking = false
  /\ proportional node_tracking = Some 10
  /\ publications (trace (hook node_tracking)) = repeat (mkTwist 0%Q 0%Q) 9
  /\ map v (publications
              (trace (drive 1 1 (node_after (hook node_tracking)))))
     = [0.36%Q].
Proof.
  split; [reflexivity|]. split; [reflexivity|].
  destruct (hook_stop_is_not_sticky node_tracking 10 1%Q 1%Q)
    as (Hh & _ & Hd).
  - reflexivity.
  - reflexivity.
  - intros H. discriminate H.
  - split; [exact Hh|]. rewrite Hd. reflexivity.
Defined.

(** The far line is the largest candidate, so the near line, though low
    enough, does not trigger; nor does the side patch, which is larger
    than both but no candidate. *)
Lemma trigger_decided_by_largest_candidate_witness :
  stopline_candidate 640 side_patch = false
  /\ stopline_candidate 640 near_line = true
  /\ stopline_candidate 640 far_line = true
  /\ (390 < centre_row near_line)%Q
  /\ ~ (390 < centre_row far_line)%Q
  /\ triggers (trace (callback two_line_frame node0)) <> 1%nat.
Proof.
  split; [reflexivity|]. split; [reflexivity|]. split; [reflexivity|].
  split; [reflexivity|].
  assert (Hfar : ~ (390 < centre_row far_line)%Q).
  { intros H. discriminate H. }
  split; [exact Hfar|].
  destruct (trigger_decided_by_largest_candidate two_line_frame node0
              [side_patch; near_line] far_line []) as (Hiff & _).
  - reflexivity.
  - reflexivity.
  - constructor; [intros H; discriminate H|].
    constructor; [intros _; reflexivity | constructor].
  - constructor.
  - intros H. apply Hiff in H. destruct H as (_ & _ & _ & H).
    exact (Hfar H).
Defined.


(** Eight frames arriving when the counter stands at 3: the fifth one is
    processed. *)
Lemma apriltag_one_frame_in_eight_witness :
  List.length (repeat image_seen 8) = 8%nat
  /\ AprilTag.processed
       (snd (AprilTag.spin (repeat image_seen 8) (AprilTag.mkMLNode 0 3)))
     = 1.
Proof.
  split; [reflexivity|].
  apply (apriltag_one_frame_in_eight (repeat image_seen 8)
           (AprilTag.mkMLNode 0 3)).
  reflexivity.
Defined.

(** The tag at exactly 0.85 m is published; the one at 0.9 m is not. *)
Lemma apriltag_publishes_only_tags_in_range_witness :
  In (AprilTag.PubTagId 133)
     (snd (AprilTag.spin (repeat image_seen 8) AprilTag.init))
  /\ ~ In (AprilTag.PubTagId 62)
         (snd (AprilTag.spin (repeat image_seen 8) AprilTag.init))
  /\ exists msg det,
       In msg (repeat image_seen 8)
       /\ In det (AprilTag.detected_tags msg)
       /\ AprilTag.tag_id det = 133
       /\ (AprilTag.IGNORE_DISTANCE_MIN <= AprilTag.pose_t_norm det)%Q
       /\ (AprilTag.pose_t_norm det <= AprilTag.IGNORE_DISTANCE_MAX)%Q.
Proof.
  assert (Hin : In (AprilTag.PubTagId 133)
                  (snd (AprilTag.spin (repeat image_seen 8) AprilTag.init))).
  { vm_compute. tauto. }
  split; [exact Hin|]. split.
  { vm_compute. intros H.
    repeat (destruct H as [H|H]; [discriminate H|]). exact H. }
  exact (apriltag_publishes_only_tags_in_range (repeat image_seen 8)
           AprilTag.init 133 Hin).
Defined.
